(** * The four point condition (fpc.py) in Rocq

    A shallow embedding of the module [fpc]: the pairing sums of a quartet
    ([fpc_sums]), the four point test on one quartet
    ([four_point_condition]) and the test of a whole matrix
    ([is_additive]).

    Conventions of the embedding.
    - The module works on whatever numbers the matrix holds.  Its
      arithmetic, [+], [-], [** 2] and [<], is an interface ([Number]) with
      two instances: exact numbers ([Q], for Python's [int] and [Fraction];
      a finite [float] tolerance compared with them counts at its exact
      value) and binary floating point ([float], where sums round and
      overflow to infinity and [** 2] raises [OverflowError]).
    - Indices are Python integers ([Z]); a list or tuple is indexed the
      Python way, negative indices counting from the end.
    - A call either returns a value or raises: the [result] monad.
    - A [dict] is an association list in insertion order; storing under a
      key that is already present replaces the value and keeps the place.
    - A global name is resolved in the namespace of the module at the time
      of the call. *)

From Stdlib Require Import PrimFloat.
From Stdlib Require FloatOps.
From Stdlib Require Import String.
From Stdlib Require Import List ZArith QArith Qpower Bool Lia Lqa.
From Stdlib Require Import Permutation Sorted.
Import ListNotations.

Set Warnings "-inexact-float".

Local Open Scope Z_scope.

(** ** Exceptions and the result monad *)

Inductive exn : Type :=
| NameError (name : string)
| AttributeError (attr : string)
| IndexError
| ValueError
| OverflowError.

Inductive result (A : Type) : Type :=
| Ok (a : A)
| Raise (e : exn).

Arguments Ok {A} a.
Arguments Raise {A} e.

Definition bind {A B : Type} (m : result A) (f : A -> result B) : result B :=
  match m with
  | Ok a => f a
  | Raise e => Raise e
  end.

Notation "x <- m ;; k" := (bind m (fun x => k))
  (at level 61, m at next level, right associativity).

Fixpoint mapM {A B : Type} (f : A -> result B) (l : list A) : result (list B) :=
  match l with
  | [] => Ok []
  | x :: r => y <- f x ;; ys <- mapM f r ;; Ok (y :: ys)
  end.

(** ** Numbers *)

(** The arithmetic that the module asks of the entries of a matrix and of
    the tolerance: [x + y], [x - y], [x ** 2], which can raise, and
    [x < y]. *)
Class Number (N : Type) : Type := {
  num_add : N -> N -> N;
  num_sub : N -> N -> N;
  num_square : N -> result N;
  num_lt : N -> N -> bool
}.

(** [x < y] on exact numbers. *)
Definition Qltb (x y : Q) : bool :=
  (Qnum x * QDen y <? Qnum y * QDen x)%Z.

(** Exact numbers: [int] and [Fraction]. *)
#[export] Instance exact_number : Number Q := {|
  num_add := Qplus;
  num_sub := Qminus;
  num_square := fun x => Ok (x ^ 2)%Q;
  num_lt := Qltb
|}.

(** [x ** 2] on floats: the rounded product; a finite [x] whose square is
    out of range raises. *)
Definition float_square (x : PrimFloat.float) : result PrimFloat.float :=
  let y := PrimFloat.mul x x in
  if PrimFloat.is_finite x && PrimFloat.is_infinity y
  then Raise OverflowError
  else Ok y.

(** Binary floating point: [float]. *)
#[export] Instance float_number : Number PrimFloat.float := {|
  num_add := PrimFloat.add;
  num_sub := PrimFloat.sub;
  num_square := float_square;
  num_lt := PrimFloat.ltb
|}.

(** The number that a float stands for, when it is finite. *)
Definition float_value (x : PrimFloat.float) : option Q :=
  match FloatOps.Prim2SF x with
  | SpecFloat.S754_zero _ => Some 0%Q
  | SpecFloat.S754_finite s m e =>
      let v := (inject_Z (Z.pos m) * 2 ^ e)%Q in
      Some (if s then (- v)%Q else v)
  | _ => None
  end.

(** ** Python primitives used by the module *)

(** [seq[i]] on a list or a tuple. *)
Definition getitem {A : Type} (l : list A) (i : Z) : result A :=
  let n := Z.of_nat (length l) in
  if (0 <=? i) && (i <? n) then
    match nth_error l (Z.to_nat i) with
    | Some a => Ok a
    | None => Raise IndexError
    end
  else if (- n <=? i) && (i <? 0) then
    match nth_error l (Z.to_nat (n + i)) with
    | Some a => Ok a
    | None => Raise IndexError
    end
  else Raise IndexError.

(** [max(l)]: the first of the largest items; an empty argument raises. *)
Fixpoint max_from {N : Type} `{Number N} (cur : N) (l : list N) : N :=
  match l with
  | [] => cur
  | x :: r => max_from (if num_lt cur x then x else cur) r
  end.

Definition py_max {N : Type} `{Number N} (l : list N) : result N :=
  match l with
  | [] => Raise ValueError
  | x :: r => Ok (max_from x r)
  end.

(** [sum(...)] over booleans: the number of [True]. *)
Definition py_sum_bool (l : list bool) : Z :=
  fold_left (fun acc (b : bool) => acc + (if b then 1 else 0)) l 0.

(** [all(f(x) for x in l)]: stops at the first [False]; an exception raised
    by [f] on the way is raised by [all]. *)
Fixpoint py_all {A : Type} (f : A -> result bool) (l : list A) : result bool :=
  match l with
  | [] => Ok true
  | x :: r => b <- f x ;; if b then py_all f r else Ok false
  end.

(** [range(n)]. *)
Definition py_range (n : nat) : list Z := map Z.of_nat (seq 0 n).

(** ** Dictionaries *)

Definition index_pair : Type := (Z * Z)%type.
Definition pairing_key : Type := (index_pair * index_pair)%type.

Definition key_eqb (k1 k2 : pairing_key) : bool :=
  let '((a, b), (c, d)) := k1 in
  let '((a', b'), (c', d')) := k2 in
  (a =? a') && (b =? b') && (c =? c') && (d =? d').

Definition dict_of (N : Type) : Type := list (pairing_key * N).

Fixpoint dict_set {N : Type} (d : dict_of N) (k : pairing_key) (v : N)
  : dict_of N :=
  match d with
  | [] => [(k, v)]
  | (k', v') :: r =>
      if key_eqb k' k then (k', v) :: r else (k', v') :: dict_set r k v
  end.

Definition dict_values {N : Type} (d : dict_of N) : list N := map snd d.
Definition dict_keys {N : Type} (d : dict_of N) : list pairing_key :=
  map fst d.

(** ** The module *)

Definition matrix_of (N : Type) : Type := list (list N).

Definition _fpc_permutations : list (Z * Z * Z * Z) :=
  [(0, 1, 2, 3);
   (0, 2, 1, 3);
   (0, 3, 1, 2)].

(** [distances[i][j]]. *)
Definition entry {N : Type} (distances : matrix_of N) (i j : Z) : result N :=
  row <- getitem distances i ;; getitem row j.

(** [tuple(q[i] for i in p)]. *)
Definition map_indices (q : list Z) (p : Z * Z * Z * Z) : result (Z * Z * Z * Z) :=
  let '(p0, p1, p2, p3) := p in
  i <- getitem q p0 ;;
  j <- getitem q p1 ;;
  k <- getitem q p2 ;;
  l <- getitem q p3 ;;
  Ok (i, j, k, l).

(** The dictionary comprehension of [fpc_sums], one item after the other. *)
Fixpoint collect_sums {N : Type} `{Number N} (distances : matrix_of N)
    (perms : list (Z * Z * Z * Z)) (acc : dict_of N) : result (dict_of N) :=
  match perms with
  | [] => Ok acc
  | (i, j, k, l) :: r =>
      x <- entry distances i j ;;
      y <- entry distances k l ;;
      collect_sums distances r (dict_set acc ((i, j), (k, l)) (num_add x y))
  end.

Definition fpc_sums {N : Type} `{Number N} (distances : matrix_of N)
    (quartet : list Z) : result (dict_of N) :=
  let q := quartet in
  permutations <- mapM (map_indices q) _fpc_permutations ;;
  collect_sums distances permutations [].

(** [(s_max - s)**2 < tolerance]. *)
Definition within_tolerance {N : Type} `{Number N} (s_max tolerance s : N)
  : result bool :=
  gap2 <- num_square (num_sub s_max s) ;; Ok (num_lt gap2 tolerance).

(** The test of [four_point_condition] on the list of sums. *)
Definition largest_repeated {N : Type} `{Number N} (sums : list N)
    (tolerance : N) : result bool :=
  s_max <- py_max sums ;;
  flags <- mapM (within_tolerance s_max tolerance) sums ;;
  if py_sum_bool flags <? 2
  then Ok false
  else Ok true.

Definition four_point_condition {N : Type} `{Number N}
    (dist_matrix : matrix_of N) (quartet : list Z) (tolerance : N)
  : result bool :=
  d <- fpc_sums dist_matrix quartet ;;
  let sums := dict_values d in
  largest_repeated sums tolerance.

(** The default [tolerance=1e-2] as a float. *)
Definition float_default_tolerance : PrimFloat.float := 1e-2%float.

(** The number that the float [1e-2] stands for, a little above 1/100. *)
Definition default_tolerance : Q :=
  5764607523034235 # 576460752303423488.

(** [list(r.values())] for the result [r] of [fpc_sums]. *)
Definition dict_values_of {N : Type} (r : result (dict_of N))
  : result (list N) :=
  d <- r ;; Ok (dict_values d).

(** ** Names and namespaces

    The body of [is_additive] refers to global names; each is looked up when
    the statement that mentions it runs, first among the globals of the
    module and then among the builtins. *)

Inductive object : Type :=
| Builtin
| Defined
| Module (name : string).

Definition namespace : Type := list (string * object).

Fixpoint load_name (ns : namespace) (name : string) : result object :=
  match ns with
  | [] => Raise (NameError name)
  | (x, o) :: r => if String.eqb x name then Ok o else load_name r name
  end.

(** [itertools.combinations(l, k)]: the [k]-element sub-sequences of [l], in
    lexicographic order of positions. *)
Fixpoint combinations {A : Type} (l : list A) (k : nat) : list (list A) :=
  match k, l with
  | O, _ => [[]]
  | S _, [] => []
  | S k', x :: r => map (cons x) (combinations r k') ++ combinations r k
  end.

(** [o.combinations]: only the module [itertools] is given this attribute. *)
Definition getattr_combinations (o : object)
  : result (list Z -> nat -> list (list Z)) :=
  match o with
  | Module m =>
      if String.eqb m "itertools" then Ok (@combinations Z)
      else Raise (AttributeError "combinations")
  | _ => Raise (AttributeError "combinations")
  end.

(** The builtins the module calls.  Python has more of them; none is called
    [itr]. *)
Definition builtins : namespace :=
  [("tuple", Builtin); ("list", Builtin); ("max", Builtin); ("sum", Builtin);
   ("len", Builtin); ("range", Builtin); ("all", Builtin)]%string.

(** The globals of the module once it has been run: it has a docstring, one
    assignment and three [def]s, and no [import]. *)
Definition fpc_globals : namespace :=
  [("_fpc_permutations", Defined); ("fpc_sums", Defined);
   ("four_point_condition", Defined); ("is_additive", Defined)]%string.

Definition fpc_namespace : namespace := fpc_globals ++ builtins.

(** The module with [import itertools as itr] added in front. *)
Definition with_itertools (ns : namespace) : namespace :=
  ("itr"%string, Module "itertools") :: ns.

(** The body of [is_additive], run in namespace [ns], with [check q] for the
    call [four_point_condition(dist_matrix, q, tolerance)]. *)
Definition is_additive_with {N : Type} (check : list Z -> result bool)
    (ns : namespace) (dist_matrix : matrix_of N) : result bool :=
  _ <- load_name ns "len" ;;
  let n := length dist_matrix in
  _ <- load_name ns "list" ;;
  itr <- load_name ns "itr" ;;
  itr_combinations <- getattr_combinations itr ;;
  _ <- load_name ns "range" ;;
  let quartets := itr_combinations (py_range n) 4%nat in
  _ <- load_name ns "all" ;;
  py_all check quartets.

Definition is_additive_in {N : Type} `{Number N} (ns : namespace)
    (dist_matrix : matrix_of N) (tolerance : N) : result bool :=
  is_additive_with (fun q => four_point_condition dist_matrix q tolerance)
    ns dist_matrix.

Definition is_additive {N : Type} `{Number N} (dist_matrix : matrix_of N)
    (tolerance : N) : result bool :=
  is_additive_in fpc_namespace dist_matrix tolerance.

(** ** Vocabulary of the specification *)

(** A matrix of exact numbers, and a mapping to exact numbers. *)
Definition matrix : Type := matrix_of Q.
Definition dict : Type := dict_of Q.

(** [D] is a square matrix of dimension [n]. *)
Definition is_square (D : matrix) (n : nat) : Prop :=
  length D = n /\ Forall (fun row => length row = n) D.

(** [i] is a valid index of a matrix of dimension [n]: one of [0..n-1]. *)
Definition valid_index (n : nat) (i : Z) : Prop := 0 <= i < Z.of_nat n.

(** [i] is not an index of a list of length [n]: outside [-n..n-1]. *)
Definition out_of_range (n : nat) (i : Z) : Prop :=
  i < - Z.of_nat n \/ Z.of_nat n <= i.

(** The position that an index of [-n..n-1] stands for in a list of length
    [n]. *)
Definition wrap_index (n : nat) (i : Z) : Z :=
  if i <? 0 then Z.of_nat n + i else i.

(** [i] is an index of a list of length [n], counted from either end. *)
Definition in_range (n : nat) (i : Z) : Prop :=
  - Z.of_nat n <= i < Z.of_nat n.

(** A namespace in which the builtins that [is_additive] calls resolve and
    [itr] is the module [itertools], as after [import itertools as itr]. *)
Definition binds_itertools (ns : namespace) : Prop :=
  load_name ns "itr" = Ok (Module "itertools")
  /\ Forall (fun name => exists o, load_name ns name = Ok o)
       ["len"; "list"; "range"; "all"]%string.

(** The value stored under a key is the sum of the two entries that the key
    names. *)
Definition sum_of_its_key (D : matrix) (kv : pairing_key * Q) : Prop :=
  let '(((i, j), (k, l)), v) := kv in
  exists x y, entry D i j = Ok x /\ entry D k l = Ok y /\ v = (x + y)%Q.

(** [D[i][j]] for valid [i] and [j]. *)
Definition cell (D : matrix) (i j : Z) : Q :=
  nth (Z.to_nat j) (nth (Z.to_nat i) D []) 0%Q.

(** [D[i][j] == D[j][i]] for all valid [i] and [j]. *)
Definition symmetric (D : matrix) (n : nat) : Prop :=
  forall i j, valid_index n i -> valid_index n j -> (cell D i j == cell D j i)%Q.

(** A quartet of four distinct valid indices. *)
Definition valid_quartet (n : nat) (q : list Z) : Prop :=
  length q = 4%nat /\ NoDup q /\ Forall (valid_index n) q.

(** The matrix of the concrete scenario: five items, all at distance 1. *)
Definition all_ones5 : matrix :=
  [[0; 1; 1; 1; 1]; [1; 0; 1; 1; 1]; [1; 1; 0; 1; 1];
   [1; 1; 1; 0; 1]; [1; 1; 1; 1; 0]]%Q.

(** Four items, all at distance 1. *)
Definition all_ones4 : matrix :=
  [[0; 1; 1; 1]; [1; 0; 1; 1]; [1; 1; 0; 1]; [1; 1; 1; 0]]%Q.

(** Three items, all at distance 1. *)
Definition all_ones3 : matrix :=
  [[0; 1; 1]; [1; 0; 1]; [1; 1; 0]]%Q.

(** A symmetric float matrix: items 1 and 2 are at distance 1e200 from
    item 0, every other distance is 0. *)
Definition float_far_apart : matrix_of float :=
  [[0; 1e200; 1e200; 0]; [1e200; 0; 0; 0]; [1e200; 0; 0; 0];
   [0; 0; 0; 0]]%float.

(** A symmetric float matrix: four items, all at distance 1e308. *)
Definition float_huge : matrix_of float :=
  [[0; 1e308; 1e308; 1e308]; [1e308; 0; 1e308; 1e308];
   [1e308; 1e308; 0; 1e308]; [1e308; 1e308; 1e308; 0]]%float.

(** Two well separated pairs: distance 2 inside a pair, 10 across. *)
Definition two_pairs : matrix :=
  [[0; 2; 10; 10]; [2; 0; 10; 10]; [10; 10; 0; 2]; [10; 10; 2; 0]]%Q.

(** The three pairing sums of the quartet [(q0, q1, q2, q3)], in the words
    of the specification. *)
Definition pairing_sums (D : matrix) (q0 q1 q2 q3 : Z) : list Q :=
  [cell D q0 q1 + cell D q2 q3;
   cell D q0 q2 + cell D q1 q3;
   cell D q0 q3 + cell D q1 q2]%Q.

(** Two of three sums are the two largest and are within tolerance of each
    other: the remaining one is the smallest. *)
Definition two_largest_close (x y z t : Q) : Prop :=
  (z <= x /\ z <= y /\ (x - y) ^ 2 < t)%Q \/
  (y <= x /\ y <= z /\ (x - z) ^ 2 < t)%Q \/
  (x <= y /\ x <= z /\ (y - z) ^ 2 < t)%Q.

(** The boolean that [four_point_condition] returns, [false] standing for an
    exception. *)
Definition fpc_holds (D : matrix) (q : list Z) (t : Q) : bool :=
  match four_point_condition D q t with
  | Ok b => b
  | Raise _ => false
  end.

(** * Properties *)

(** ** Numbers *)

Lemma Qltb_lt (x y : Q) : Qltb x y = true <-> (x < y)%Q.
Proof. unfold Qltb, Qlt. apply Z.ltb_lt. Qed.

Lemma Qltb_ge (x y : Q) : Qltb x y = false <-> (y <= x)%Q.
Proof. unfold Qltb, Qle. apply Z.ltb_ge. Qed.

Lemma Qltb_reflect (x y : Q) : reflect (x < y)%Q (Qltb x y).
Proof.
  destruct (Qltb x y) eqn:E; constructor.
  - now apply Qltb_lt.
  - intro H. apply Qltb_lt in H. congruence.
Qed.

Lemma Qsquare (x : Q) : (x ^ 2 = x * x)%Q.
Proof. reflexivity. Qed.

Lemma Qsquare_nonneg (x : Q) : (0 <= x ^ 2)%Q.
Proof. rewrite Qsquare. nra. Qed.

Lemma Qsquare_sub_swap (x y : Q) : ((x - y) ^ 2 == (y - x) ^ 2)%Q.
Proof. rewrite !Qsquare. ring. Qed.


(** The exact default tolerance is the value of the float [1e-2]. *)
Lemma default_tolerance_value :
  float_value float_default_tolerance = Some default_tolerance
  /\ (1 # 100 < default_tolerance)%Q.
Proof. split; reflexivity. Qed.

(** ** The test on the sums *)

Lemma mapM_Ok {A B : Type} (g : A -> B) (l : list A) :
  mapM (fun x => Ok (g x)) l = Ok (map g l).
Proof.
  induction l as [| x r IH]; cbn [mapM map bind].
  - reflexivity.
  - rewrite IH. reflexivity.
Qed.

(** On exact numbers no square raises, and the test is a count. *)
Lemma largest_repeated_exact (sums : list Q) (t : Q) :
  largest_repeated sums t
  = (s_max <- py_max sums ;;
     if py_sum_bool (map (fun s => Qltb ((s_max - s) ^ 2) t) sums) <? 2
     then Ok false
     else Ok true).
Proof.
  unfold largest_repeated.
  destruct (py_max sums) as [s_max |]; cbn [bind]; [| reflexivity].
  change (within_tolerance s_max t)
    with (fun s => @Ok bool (Qltb ((s_max - s) ^ 2) t)).
  rewrite mapM_Ok. reflexivity.
Qed.

Lemma py_sum_bool3 (a b c : bool) :
  (py_sum_bool [a; b; c] <? 2) = negb ((a && b) || (a && c) || (b && c)).
Proof. destruct a, b, c; reflexivity. Qed.

(** [max] of three sums is one of them and bounds them all. *)
Lemma max_from3 (x y z : Q) :
  let m := max_from x [y; z] in
  (m = x \/ m = y \/ m = z) /\ (x <= m /\ y <= m /\ z <= m)%Q.
Proof.
  simpl.
  destruct (Qltb_reflect x y) as [Hxy | Hxy].
  - destruct (Qltb_reflect y z) as [Hyz | Hyz]; split; auto; lra.
  - destruct (Qltb_reflect x z) as [Hxz | Hxz]; split; auto; lra.
Qed.

Lemma largest_repeated3_returns (x y z t : Q) :
  exists b, largest_repeated [x; y; z] t = Ok b.
Proof.
  rewrite largest_repeated_exact. unfold py_max, bind.
  destruct (_ <? 2); eauto.
Qed.

Lemma largest_repeated3 (x y z t : Q) :
  largest_repeated [x; y; z] t = Ok true <-> two_largest_close x y z t.
Proof.
  rewrite largest_repeated_exact. unfold py_max, bind, two_largest_close.
  destruct (max_from3 x y z) as [Hm (Hx & Hy & Hz)].
  set (m := max_from x [y; z]) in *.
  cbn [map]. rewrite py_sum_bool3.
  destruct (Qltb_reflect ((m - x) ^ 2) t) as [Bx | Bx];
  destruct (Qltb_reflect ((m - y) ^ 2) t) as [By | By];
  destruct (Qltb_reflect ((m - z) ^ 2) t) as [Bz | Bz];
  cbn [andb orb negb]; rewrite !Qsquare in *;
  (split; [ intro H; try discriminate | intro H ]).
  all: destruct Hm as [-> | [-> | ->]].
  all: try (exfalso; nra).
  all: try nra.
  all: try reflexivity.
Qed.

(** ** Indexing *)

Lemma getitem_valid {A : Type} (l : list A) (i : Z) (d : A) :
  0 <= i < Z.of_nat (length l) -> getitem l i = Ok (nth (Z.to_nat i) l d).
Proof.
  intros [H0 H1]. unfold getitem.
  assert (Hn : (Z.to_nat i < length l)%nat) by lia.
  apply Z.leb_le in H0. apply Z.ltb_lt in H1. rewrite H0, H1. cbn [andb].
  rewrite (nth_error_nth' l d Hn). reflexivity.
Qed.

Lemma getitem_out_of_range {A : Type} (l : list A) (i : Z) :
  i < - Z.of_nat (length l) \/ Z.of_nat (length l) <= i ->
  getitem l i = Raise IndexError.
Proof.
  intros H. unfold getitem.
  destruct H as [H | H].
  - assert (E1 : (0 <=? i) = false) by (apply Z.leb_gt; lia).
    assert (E2 : (- Z.of_nat (length l) <=? i) = false) by (apply Z.leb_gt; lia).
    rewrite E1, E2. reflexivity.
  - assert (E1 : (i <? Z.of_nat (length l)) = false) by (apply Z.ltb_ge; lia).
    assert (E2 : (i <? 0) = false) by (apply Z.ltb_ge; lia).
    rewrite E1, E2, !andb_false_r. reflexivity.
Qed.

Lemma square_row (D : matrix) (n : nat) (i : Z) :
  is_square D n -> valid_index n i -> length (nth (Z.to_nat i) D []) = n.
Proof.
  intros [Hlen Hrows] [H0 H1].
  rewrite Forall_forall in Hrows. apply Hrows, nth_In. lia.
Qed.

Lemma entry_valid (D : matrix) (n : nat) (i j : Z) :
  is_square D n -> valid_index n i -> valid_index n j ->
  entry D i j = Ok (cell D i j).
Proof.
  intros HD Hi Hj. unfold entry, cell.
  rewrite (getitem_valid D i []) by (destruct HD as [-> _]; exact Hi).
  cbn [bind]. apply getitem_valid.
  rewrite (square_row D n i HD Hi). exact Hj.
Qed.

Lemma entry_row_out_of_range (D : matrix) (n : nat) (i j : Z) :
  is_square D n -> out_of_range n i -> entry D i j = Raise IndexError.
Proof.
  intros [Hlen _] Hi. unfold entry.
  rewrite getitem_out_of_range by (rewrite Hlen; exact Hi). reflexivity.
Qed.

(** ** The pairing sums *)

Lemma map_indices_quartet (a b c d : Z) :
  mapM (map_indices [a; b; c; d]) _fpc_permutations
  = Ok [(a, b, c, d); (a, c, b, d); (a, d, b, c)].
Proof. reflexivity. Qed.

(** On four valid indices, distinct or not, the three sums are stored one
    after the other under their keys. *)
Lemma fpc_sums_valid (D : matrix) (n : nat) (a b c d : Z) :
  is_square D n ->
  valid_index n a -> valid_index n b -> valid_index n c -> valid_index n d ->
  fpc_sums D [a; b; c; d]
  = Ok (dict_set
          (dict_set [(((a, b), (c, d)), cell D a b + cell D c d)%Q]
             ((a, c), (b, d)) (cell D a c + cell D b d)%Q)
          ((a, d), (b, c)) (cell D a d + cell D b c)%Q).
Proof.
  intros HD Ha Hb Hc Hd. unfold fpc_sums.
  rewrite map_indices_quartet. cbn [bind collect_sums].
  rewrite !(entry_valid D n) by assumption.
  reflexivity.
Qed.

Lemma fpc_sums_distinct (D : matrix) (n : nat) (a b c d : Z) :
  is_square D n -> valid_quartet n [a; b; c; d] ->
  fpc_sums D [a; b; c; d]
  = Ok [(((a, b), (c, d)), cell D a b + cell D c d);
        (((a, c), (b, d)), cell D a c + cell D b d);
        (((a, d), (b, c)), cell D a d + cell D b c)]%Q.
Proof.
  intros HD (_ & Hnd & Hv).
  inversion Hv as [| ? ? Ha Hv1]; subst.
  inversion Hv1 as [| ? ? Hb Hv2]; subst.
  inversion Hv2 as [| ? ? Hc Hv3]; subst.
  inversion Hv3 as [| ? ? Hd _]; subst.
  rewrite (fpc_sums_valid D n) by assumption.
  inversion Hnd as [| ? ? _ Hnd1]; subst.
  inversion Hnd1 as [| ? ? Hb' Hnd2]; subst.
  inversion Hnd2 as [| ? ? Hc' _]; subst.
  assert (Hbc : b <> c) by (intro; subst; apply Hb'; left; reflexivity).
  assert (Hcd : c <> d) by (intro; subst; apply Hc'; left; reflexivity).
  assert (E1 : (b =? c) = false) by now apply Z.eqb_neq.
  assert (E2 : (c =? b) = false) by (apply Z.eqb_neq; congruence).
  assert (E3 : (c =? d) = false) by now apply Z.eqb_neq.
  cbn [dict_set key_eqb].
  rewrite E1, andb_false_r. cbn [andb dict_set key_eqb].
  rewrite E2, E3, !andb_false_r. cbn [andb].
  reflexivity.
Qed.

Lemma four_point_condition_distinct (D : matrix) (n : nat) (a b c d : Z) (t : Q) :
  is_square D n -> valid_quartet n [a; b; c; d] ->
  four_point_condition D [a; b; c; d] t
  = largest_repeated (pairing_sums D a b c d) t.
Proof.
  intros HD Hq. unfold four_point_condition.
  rewrite (fpc_sums_distinct D n) by assumption. reflexivity.
Qed.

Lemma valid_quartet_inv (n : nat) (q : list Z) :
  valid_quartet n q -> exists a b c d, q = [a; b; c; d].
Proof.
  intros (Hlen & _).
  destruct q as [| a [| b [| c [| d [| e r]]]]]; try discriminate.
  now exists a, b, c, d.
Qed.

Lemma dict_set_length {N : Type} (m : dict_of N) (k : pairing_key) (v : N) :
  (length m <= length (dict_set m k v) <= S (length m))%nat.
Proof.
  induction m as [| [k' v'] r IH]; cbn [dict_set length].
  - lia.
  - destruct (key_eqb k' k); cbn [length]; lia.
Qed.

(** The number of entries on four valid indices: fewer than three exactly
    when two of the three keys coincide. *)
Lemma fpc_sums_valid_length (D : matrix) (n : nat) (a b c d : Z) :
  is_square D n ->
  valid_index n a -> valid_index n b -> valid_index n c -> valid_index n d ->
  exists m, fpc_sums D [a; b; c; d] = Ok m /\
            (1 <= length m <= 3)%nat /\
            ((length m < 3)%nat <-> b = c \/ c = d).
Proof.
  intros HD Ha Hb Hc Hd.
  rewrite (fpc_sums_valid D n) by assumption.
  eexists. split; [reflexivity |].
  destruct (Z.eqb_spec b c) as [Ebc | Nbc];
    destruct (Z.eqb_spec c d) as [Ecd | Ncd]; subst;
    repeat match goal with
           | H : ?x <> ?y |- _ =>
               let E := fresh "E" in
               assert (E : (x =? y) = false) by (now apply Z.eqb_neq);
               let E' := fresh "E" in
               assert (E' : (y =? x) = false) by (apply Z.eqb_neq; congruence);
               clear H
           end;
    repeat (progress (cbn [dict_set key_eqb andb length];
                      rewrite ?Z.eqb_refl, ?andb_false_r));
    repeat match goal with
           | E : (_ =? _) = false |- _ =>
               progress (rewrite ?E, ?andb_false_r);
               repeat (progress (cbn [dict_set key_eqb andb length];
                                 rewrite ?Z.eqb_refl, ?andb_false_r))
           end.
  all: split; [lia | split; [intros; auto; lia | intros; try lia]].
Qed.

(** A quartet with fewer than four items: [q[i]] raises. *)
Lemma fpc_sums_short (D : matrix) (q : list Z) :
  (length q < 4)%nat -> fpc_sums D q = Raise IndexError.
Proof.
  intros H.
  destruct q as [| a [| b [| c [| d r]]]]; try reflexivity.
  cbn [length] in H. lia.
Qed.

Lemma entry_column_out_of_range (D : matrix) (n : nat) (i j : Z) :
  is_square D n -> out_of_range n j -> entry D i j = Raise IndexError.
Proof.
  intros HD Hj. unfold entry.
  destruct (getitem D i) as [row |] eqn:E; cbn [bind].
  - assert (Hrow : length row = n).
    { destruct HD as [_ Hrows]. rewrite Forall_forall in Hrows. apply Hrows.
      unfold getitem in E.
      destruct ((0 <=? i) && (i <? Z.of_nat (length D))).
      - destruct (nth_error D (Z.to_nat i)) eqn:N; inversion E; subst.
        eapply nth_error_In; eauto.
      - destruct ((- Z.of_nat (length D) <=? i) && (i <? 0)); try discriminate.
        destruct (nth_error D _) eqn:N; inversion E; subst.
        eapply nth_error_In; eauto. }
    apply getitem_out_of_range. rewrite Hrow. exact Hj.
  - unfold getitem in E.
    destruct ((0 <=? i) && (i <? Z.of_nat (length D))).
    + destruct (nth_error D (Z.to_nat i)); inversion E; reflexivity.
    + destruct ((- Z.of_nat (length D) <=? i) && (i <? 0)).
      * destruct (nth_error D _); inversion E; reflexivity.
      * inversion E; reflexivity.
Qed.

(** Every exception of [entry] is an [IndexError]. *)
Lemma entry_raises {N : Type} (D : matrix_of N) (i j : Z) (e : exn) :
  entry D i j = Raise e -> e = IndexError.
Proof.
  unfold entry, getitem, bind.
  repeat match goal with
         | |- context [if ?b then _ else _] => destruct b
         | |- context [match nth_error ?l ?k with _ => _ end] =>
             destruct (nth_error l k)
         end; intros E; inversion E; reflexivity.
Qed.

(** Four items one of which is out of range: [distances[i][j]] raises. *)
Lemma fpc_sums_out_of_range (D : matrix) (n : nat) (a b c d : Z) :
  is_square D n -> Exists (out_of_range n) [a; b; c; d] ->
  fpc_sums D [a; b; c; d] = Raise IndexError.
Proof.
  intros HD Hex. unfold fpc_sums. rewrite map_indices_quartet.
  cbn [bind collect_sums].
  assert (Hcol : forall i j, out_of_range n j -> entry D i j = Raise IndexError)
    by (intros; now apply (entry_column_out_of_range D n)).
  assert (Hrow : forall i j, out_of_range n i -> entry D i j = Raise IndexError)
    by (intros; now apply (entry_row_out_of_range D n)).
  rewrite !Exists_cons, Exists_nil in Hex.
  destruct Hex as [H | [H | [H | [H | []]]]].
  - rewrite (Hrow a b H). reflexivity.
  - rewrite (Hcol a b H). reflexivity.
  - destruct (entry D a b) eqn:E; cbn [bind].
    + rewrite (Hrow c d H). reflexivity.
    + f_equal. eapply entry_raises; eauto.
  - destruct (entry D a b) eqn:E; cbn [bind].
    + rewrite (Hcol c d H). reflexivity.
    + f_equal. eapply entry_raises; eauto.
Qed.

(** ** Invariance of the test on three sums *)

Lemma two_largest_close_compat (x y z x' y' z' t : Q) :
  (x == x')%Q -> (y == y')%Q -> (z == z')%Q ->
  two_largest_close x y z t <-> two_largest_close x' y' z' t.
Proof.
  intros Hx Hy Hz. unfold two_largest_close.
  rewrite !Qsquare. rewrite Hx, Hy, Hz. reflexivity.
Qed.

Lemma two_largest_close_swap12 (x y z t : Q) :
  two_largest_close x y z t <-> two_largest_close y x z t.
Proof.
  unfold two_largest_close.
  rewrite (Qsquare_sub_swap x y). tauto.
Qed.

Lemma two_largest_close_swap23 (x y z t : Q) :
  two_largest_close x y z t <-> two_largest_close x z y t.
Proof.
  unfold two_largest_close.
  rewrite (Qsquare_sub_swap y z). tauto.
Qed.

(** The test gives the same boolean on sums that agree on
    [two_largest_close]. *)
Lemma largest_repeated3_ext (x y z x' y' z' t : Q) :
  (two_largest_close x y z t <-> two_largest_close x' y' z' t) ->
  largest_repeated [x; y; z] t = largest_repeated [x'; y'; z'] t.
Proof.
  intros H.
  destruct (largest_repeated3_returns x y z t) as [b Hb].
  destruct (largest_repeated3_returns x' y' z' t) as [b' Hb'].
  pose proof (largest_repeated3 x y z t) as L.
  pose proof (largest_repeated3 x' y' z' t) as L'.
  rewrite Hb in *. rewrite Hb' in *.
  destruct b, b'; try reflexivity.
  - assert (E : @Ok bool false = Ok true) by (apply L', H, L; reflexivity).
    discriminate.
  - assert (E : @Ok bool false = Ok true) by (apply L, H, L'; reflexivity).
    discriminate.
Qed.

(** The three arrangements of three sums in decreasing order. *)
Lemma permutation3_cases (s1 s2 s3 x y z : Q) :
  Permutation [s1; s2; s3] [x; y; z] ->
  (s1, s2, s3) = (x, y, z) \/ (s1, s2, s3) = (x, z, y) \/
  (s1, s2, s3) = (y, x, z) \/ (s1, s2, s3) = (y, z, x) \/
  (s1, s2, s3) = (z, x, y) \/ (s1, s2, s3) = (z, y, x).
Proof.
  intros H. apply Permutation_sym in H.
  assert (Hin : In x [s1; s2; s3])
    by (eapply Permutation_in; [exact H | left; reflexivity]).
  cbn [In] in Hin.
  destruct Hin as [<- | [<- | [<- | []]]].
  - apply Permutation_cons_inv, Permutation_length_2_inv in H.
    destruct H as [E | E]; inversion E; subst; auto 6.
  - apply (Permutation_cons_app_inv [s1] [s3]) in H. cbn [app] in H.
    apply Permutation_length_2_inv in H.
    destruct H as [E | E]; inversion E; subst; auto 6.
  - apply (Permutation_cons_app_inv [s1; s2] []) in H. cbn [app] in H.
    apply Permutation_length_2_inv in H.
    destruct H as [E | E]; inversion E; subst; auto 7.
Qed.

(** The test on three sums decides whether the two largest are within
    tolerance of each other. *)
Lemma two_largest_close_sorted (s1 s2 s3 x y z t : Q) :
  Permutation [s1; s2; s3] [x; y; z] ->
  (s3 <= s2)%Q -> (s2 <= s1)%Q ->
  two_largest_close x y z t <-> ((s1 - s2) ^ 2 < t)%Q.
Proof.
  intros HP H32 H21. unfold two_largest_close. rewrite !Qsquare.
  apply permutation3_cases in HP.
  destruct HP as [E | [E | [E | [E | [E | E]]]]]; inversion E; subst;
    split; intro H; nra.
Qed.

(** ** all and combinations *)

Lemma py_all_true_iff {A : Type} (f : A -> result bool) (l : list A) :
  py_all f l = Ok true <-> Forall (fun x => f x = Ok true) l.
Proof.
  induction l as [| x r IH]; cbn [py_all].
  - split; [constructor | reflexivity].
  - split.
    + intro H. destruct (f x) as [[|] | e] eqn:E; cbn [bind] in H; try discriminate.
      constructor; [exact E | now apply IH].
    + intro H. inversion H as [| ? ? Hx Hr]; subst.
      rewrite Hx. cbn [bind]. now apply IH.
Qed.

(** Without exceptions, stopping at the first [False] gives the conjunction
    of all the tests. *)
Lemma py_all_forallb {A : Type} (f : A -> result bool) (g : A -> bool)
    (l : list A) :
  Forall (fun x => f x = Ok (g x)) l -> py_all f l = Ok (forallb g l).
Proof.
  induction 1 as [| x r Hx Hr IH]; cbn [py_all forallb].
  - reflexivity.
  - rewrite Hx. cbn [bind]. destruct (g x); cbn [andb]; [exact IH | reflexivity].
Qed.

Lemma combinations_length {A : Type} (l : list A) (k : nat) (c : list A) :
  In c (combinations l k) -> length c = k.
Proof.
  revert k c. induction l as [| x r IH]; intros [| k] c H; cbn in H.
  - destruct H as [<- | []]. reflexivity.
  - contradiction.
  - destruct H as [<- | []]. reflexivity.
  - apply in_app_or in H. destruct H as [H | H].
    + apply in_map_iff in H. destruct H as (c' & <- & H).
      cbn [length]. f_equal. now apply IH.
    + now apply IH.
Qed.

Lemma combinations_incl {A : Type} (l : list A) (k : nat) (c : list A) :
  In c (combinations l k) -> incl c l.
Proof.
  revert k c. induction l as [| x r IH]; intros [| k] c H; cbn in H.
  - destruct H as [<- | []]. apply incl_nil_l.
  - contradiction.
  - destruct H as [<- | []]. apply incl_nil_l.
  - apply in_app_or in H. destruct H as [H | H].
    + apply in_map_iff in H. destruct H as (c' & <- & H).
      apply incl_cons; [left; reflexivity | apply incl_tl; eapply IH; eauto].
    + apply incl_tl. eapply IH; eauto.
Qed.

Lemma combinations_NoDup {A : Type} (l : list A) (k : nat) (c : list A) :
  NoDup l -> In c (combinations l k) -> NoDup c.
Proof.
  revert k c. induction l as [| x r IH]; intros [| k] c Hnd H; cbn in H.
  - destruct H as [<- | []]. constructor.
  - contradiction.
  - destruct H as [<- | []]. constructor.
  - inversion Hnd as [| ? ? Hx Hr]; subst.
    apply in_app_or in H. destruct H as [H | H].
    + apply in_map_iff in H. destruct H as (c' & <- & H).
      constructor; [| eapply IH; eauto].
      intro Hin. apply Hx. eapply combinations_incl; eauto.
    + eapply IH; eauto.
Qed.

Lemma combinations_few {A : Type} (l : list A) (k : nat) :
  (length l < k)%nat -> combinations l k = [].
Proof.
  revert k. induction l as [| x r IH]; intros [| k] H; cbn [length] in H;
    try lia; cbn [combinations].
  - reflexivity.
  - rewrite (IH k), (IH (S k)) by lia. reflexivity.
Qed.

Lemma py_range_length (n : nat) : length (py_range n) = n.
Proof. unfold py_range. now rewrite length_map, length_seq. Qed.

Lemma py_range_valid (n : nat) (i : Z) : In i (py_range n) <-> valid_index n i.
Proof.
  unfold py_range, valid_index. rewrite in_map_iff. split.
  - intros (k & <- & H). apply in_seq in H. lia.
  - intros H. exists (Z.to_nat i). split; [lia | apply in_seq; lia].
Qed.

Lemma py_range_NoDup (n : nat) : NoDup (py_range n).
Proof.
  unfold py_range. apply Finite.Injective_map_NoDup.
  - intros a b H. lia.
  - apply seq_NoDup.
Qed.

(** The quartets that [is_additive] enumerates are valid quartets. *)
Lemma quartets_valid (n : nat) (q : list Z) :
  In q (combinations (py_range n) 4) -> valid_quartet n q.
Proof.
  intros H. repeat split.
  - eapply combinations_length; eauto.
  - eapply combinations_NoDup; eauto using py_range_NoDup.
  - apply Forall_forall. intros i Hi. apply py_range_valid.
    eapply combinations_incl; eauto.
Qed.

(** A sorted list without repetition drawn from a sorted list is among its
    combinations. *)
Lemma combinations_complete (l : list Z) (c : list Z) :
  StronglySorted Z.lt l -> StronglySorted Z.lt c -> incl c l ->
  In c (combinations l (length c)).
Proof.
  intros Hl. revert c. induction Hl as [| x r Hr IH Hx]; intros c Hc Hincl.
  - destruct c as [| y c']; [left; reflexivity |].
    exfalso. apply (Hincl y). left; reflexivity.
  - destruct c as [| y c']; [destruct r; left; reflexivity |].
    cbn [length combinations]. apply in_or_app.
    inversion Hc as [| ? ? Hc' Hy]; subst.
    rewrite Forall_forall in Hx, Hy.
    destruct (Z.eq_dec y x) as [-> | Hne].
    + left. apply in_map. apply IH; [exact Hc' |].
      intros i Hi. destruct (Hincl i (or_intror Hi)) as [E | Hin]; [| exact Hin].
      subst i. specialize (Hy x Hi). lia.
    + right. apply (IH (y :: c') Hc).
      intros i Hi. destruct (Hincl i Hi) as [E | Hin]; [| exact Hin].
      subst i. destruct Hi as [E | Hi]; [congruence |].
      specialize (Hy x Hi).
      destruct (Hincl y (or_introl eq_refl)) as [E | Hin]; [congruence |].
      specialize (Hx y Hin). lia.
Qed.

Lemma py_range_sorted (n : nat) : StronglySorted Z.lt (py_range n).
Proof.
  unfold py_range. generalize 0%nat as s.
  induction n as [| n IH]; intros s; cbn [seq map]; constructor.
  - apply IH.
  - apply Forall_forall. intros i Hi.
    apply in_map_iff in Hi. destruct Hi as (k & <- & Hk).
    apply in_seq in Hk. lia.
Qed.

(** Every increasing quartet of valid indices is enumerated. *)
Lemma quartets_complete (n : nat) (a b c d : Z) :
  0 <= a -> a < b -> b < c -> c < d -> d < Z.of_nat n ->
  In [a; b; c; d] (combinations (py_range n) 4).
Proof.
  intros H0 Hab Hbc Hcd Hd.
  apply (combinations_complete (py_range n) [a; b; c; d]).
  - apply py_range_sorted.
  - repeat constructor; lia.
  - intros i Hi. apply py_range_valid. unfold valid_index.
    cbn [In] in Hi. lia.
Qed.

(** ** Tolerances that no squared gap is below *)

Lemma py_sum_bool_none {A : Type} (l : list A) :
  py_sum_bool (map (fun _ => false) l) = 0.
Proof.
  unfold py_sum_bool. induction l as [| x r IH]; cbn [map fold_left].
  - reflexivity.
  - exact IH.
Qed.

Lemma Qltb_square_nonpositive (x t : Q) :
  (t <= 0)%Q -> Qltb (x ^ 2) t = false.
Proof.
  intros Ht. apply Qltb_ge. pose proof (Qsquare_nonneg x). lra.
Qed.

Lemma largest_repeated_nonpositive (sums : list Q) (t : Q) :
  sums <> [] -> (t <= 0)%Q -> largest_repeated sums t = Ok false.
Proof.
  intros Hne Ht. destruct sums as [| x r]; [congruence |].
  rewrite largest_repeated_exact. unfold py_max, bind.
  rewrite (map_ext _ (fun _ => false)).
  - rewrite py_sum_bool_none. reflexivity.
  - intros s. now apply Qltb_square_nonpositive.
Qed.

Lemma mapM_length {A B : Type} (f : A -> result B) (l : list A) (l' : list B) :
  mapM f l = Ok l' -> length l' = length l.
Proof.
  revert l'. induction l as [| x r IH]; intros l' H; cbn [mapM] in H.
  - inversion H. reflexivity.
  - destruct (f x) as [y |]; cbn [bind] in H; try discriminate.
    destruct (mapM f r) as [ys |]; cbn [bind] in H; try discriminate.
    inversion H. cbn [length]. f_equal. now apply IH.
Qed.

Lemma collect_sums_length {N : Type} {HN : Number N} (D : matrix_of N)
    (perms : list (Z * Z * Z * Z)) (acc m : dict_of N) :
  collect_sums D perms acc = Ok m ->
  (length acc <= length m)%nat /\ (perms <> [] -> 1 <= length m)%nat.
Proof.
  revert acc. induction perms as [| [[[i j] k] l] r IH]; intros acc H;
    cbn [collect_sums] in H.
  - inversion H; subst. split; [lia | congruence].
  - destruct (entry D i j) as [x |]; cbn [bind] in H; try discriminate.
    destruct (entry D k l) as [y |]; cbn [bind] in H; try discriminate.
    apply IH in H. destruct H as [H _].
    pose proof (dict_set_length acc ((i, j), (k, l)) (num_add x y)) as L.
    split; [lia |]. intros _.
    destruct acc; cbn [dict_set length] in *; lia.
Qed.

(** A mapping returned by [fpc_sums] has at least one entry. *)
Lemma fpc_sums_nonempty {N : Type} {HN : Number N} (D : matrix_of N) (q : list Z)
    (m : dict_of N) :
  fpc_sums D q = Ok m -> dict_values m <> [].
Proof.
  unfold fpc_sums. intros H.
  destruct (mapM (map_indices q) _fpc_permutations) as [perms |] eqn:E;
    cbn [bind] in H; try discriminate.
  apply mapM_length in E. cbn [length _fpc_permutations] in E.
  apply collect_sums_length in H. destruct H as [_ H].
  assert (Hp : perms <> []) by (destruct perms; [discriminate | congruence]).
  specialize (H Hp). destruct m; cbn [length] in H; [lia |].
  discriminate.
Qed.

Lemma four_point_condition_nonpositive (D : matrix) (q : list Z) (m : dict)
    (t : Q) :
  fpc_sums D q = Ok m -> (t <= 0)%Q -> four_point_condition D q t = Ok false.
Proof.
  intros Hm Ht. unfold four_point_condition. rewrite Hm. cbn [bind].
  apply largest_repeated_nonpositive; [| exact Ht].
  eapply fpc_sums_nonempty; eauto.
Qed.

(** ** The body of is_additive once [itr] is bound to [itertools] *)

Lemma is_additive_in_with_itertools (D : matrix) (t : Q) :
  is_additive_in (with_itertools fpc_namespace) D t
  = py_all (fun q => four_point_condition D q t)
      (combinations (py_range (length D)) 4).
Proof. reflexivity. Qed.

Lemma four_point_condition_returns (D : matrix) (n : nat) (q : list Z) (t : Q) :
  is_square D n -> valid_quartet n q ->
  four_point_condition D q t = Ok (fpc_holds D q t).
Proof.
  intros HD Hq. unfold fpc_holds.
  destruct (valid_quartet_inv n q Hq) as (a & b & c & d & ->).
  rewrite (four_point_condition_distinct D n) by assumption.
  unfold pairing_sums.
  destruct (largest_repeated3_returns
              (cell D a b + cell D c d) (cell D a c + cell D b d)
              (cell D a d + cell D b c) t) as [r ->].
  reflexivity.
Qed.

(** With the import, [is_additive] returns the conjunction of the tests of
    all enumerated quartets, and it is true exactly when each test is. *)
Lemma is_additive_with_itertools_all (D : matrix) (n : nat) (t : Q) :
  is_square D n ->
  is_additive_in (with_itertools fpc_namespace) D t
  = Ok (forallb (fun q => fpc_holds D q t) (combinations (py_range n) 4)).
Proof.
  intros HD. rewrite is_additive_in_with_itertools.
  destruct HD as [Hlen Hrows]. rewrite Hlen.
  apply py_all_forallb, Forall_forall. intros q Hq.
  apply (four_point_condition_returns D n); [split; assumption |].
  now apply quartets_valid.
Qed.

Lemma is_additive_with_itertools_iff (D : matrix) (n : nat) (t : Q) :
  is_square D n ->
  is_additive_in (with_itertools fpc_namespace) D t = Ok true <->
  (forall q, In q (combinations (py_range n) 4) ->
             four_point_condition D q t = Ok true).
Proof.
  intros [Hlen _]. rewrite is_additive_in_with_itertools, Hlen.
  rewrite py_all_true_iff, Forall_forall. reflexivity.
Qed.

Lemma is_additive_with_itertools_small (D : matrix) (t : Q) :
  (length D < 4)%nat ->
  is_additive_in (with_itertools fpc_namespace) D t = Ok true.
Proof.
  intros H. rewrite is_additive_in_with_itertools.
  rewrite combinations_few by (rewrite py_range_length; exact H).
  reflexivity.
Qed.

Lemma combinations_zero {A : Type} (l : list A) : combinations l 0 = [[]].
Proof. destruct l; reflexivity. Qed.

Lemma first_quartet (n : nat) :
  (4 <= n)%nat ->
  exists r, combinations (py_range n) 4 = [0; 1; 2; 3] :: r.
Proof.
  intros H. destruct n as [| [| [| [| n]]]]; try lia.
  unfold py_range. cbn [seq map combinations].
  rewrite combinations_zero. cbn [map app Z.of_nat Pos.of_succ_nat Pos.succ].
  eexists. reflexivity.
Qed.

Lemma is_additive_with_itertools_negative (D : matrix) (n : nat) (t : Q) :
  is_square D n -> (4 <= n)%nat -> (t < 0)%Q ->
  is_additive_in (with_itertools fpc_namespace) D t = Ok false.
Proof.
  intros HD Hn Ht. rewrite is_additive_in_with_itertools.
  destruct (first_quartet n Hn) as [r Hr].
  destruct HD as [Hlen Hrows]. rewrite Hlen, Hr. cbn [py_all].
  assert (Hv : forall i, In i [0; 1; 2; 3] -> valid_index n i)
    by (intros i Hi; unfold valid_index; cbn [In] in Hi; lia).
  destruct (fpc_sums_valid_length D n 0 1 2 3) as (m & Hm & _);
    try (split; assumption); try (apply Hv; cbn [In]; auto).
  rewrite (four_point_condition_nonpositive D [0; 1; 2; 3] m t Hm) by lra.
  reflexivity.
Qed.

Lemma is_additive_with_itertools_all_ones5 :
  is_additive_in (with_itertools fpc_namespace) all_ones5 default_tolerance
  = Ok true.
Proof. vm_compute. reflexivity. Qed.

(** ** Reordering a quartet *)

Lemma valid_quartet_permutation (n : nat) (q q' : list Z) :
  Permutation q q' -> valid_quartet n q -> valid_quartet n q'.
Proof.
  intros HP (Hlen & Hnd & Hv). repeat split.
  - rewrite <- Hlen. symmetry. now apply Permutation_length.
  - eapply Permutation_NoDup; eauto.
  - eapply Permutation_Forall; eauto.
Qed.

Lemma valid_quartet_indices (n : nat) (a b c d : Z) :
  valid_quartet n [a; b; c; d] ->
  valid_index n a /\ valid_index n b /\ valid_index n c /\ valid_index n d.
Proof.
  intros (_ & _ & Hv).
  inversion Hv as [| ? ? Ha Hv1]; subst.
  inversion Hv1 as [| ? ? Hb Hv2]; subst.
  inversion Hv2 as [| ? ? Hc Hv3]; subst.
  inversion Hv3 as [| ? ? Hd _]; subst.
  auto.
Qed.

Section Reordering.

Variables (D : matrix) (n : nat) (t : Q).
Hypothesis D_square : is_square D n.
Hypothesis D_symmetric : symmetric D n.

Ltac reorder a b c d Hq :=
  destruct (valid_quartet_indices n a b c d Hq) as (Ha & Hb & Hc & Hd);
  rewrite !(four_point_condition_distinct D n) by assumption;
  unfold pairing_sums; apply largest_repeated3_ext.

Lemma four_point_condition_swap01 (a b c d : Z) :
  valid_quartet n [a; b; c; d] ->
  four_point_condition D [b; a; c; d] t = four_point_condition D [a; b; c; d] t.
Proof.
  intros Hq.
  assert (Hq' : valid_quartet n [b; a; c; d])
    by (eapply valid_quartet_permutation; [apply perm_swap | exact Hq]).
  reorder a b c d Hq.
  rewrite (two_largest_close_swap23 (cell D a b + cell D c d)).
  apply two_largest_close_compat.
  - rewrite (D_symmetric b a) by assumption. reflexivity.
  - ring.
  - ring.
Qed.

Lemma four_point_condition_swap12 (a b c d : Z) :
  valid_quartet n [a; b; c; d] ->
  four_point_condition D [a; c; b; d] t = four_point_condition D [a; b; c; d] t.
Proof.
  intros Hq.
  assert (Hq' : valid_quartet n [a; c; b; d])
    by (eapply valid_quartet_permutation;
        [apply perm_skip, perm_swap | exact Hq]).
  reorder a b c d Hq.
  rewrite (two_largest_close_swap12 (cell D a b + cell D c d)).
  apply two_largest_close_compat.
  - reflexivity.
  - reflexivity.
  - rewrite (D_symmetric c b) by assumption. reflexivity.
Qed.

Lemma four_point_condition_swap23 (a b c d : Z) :
  valid_quartet n [a; b; c; d] ->
  four_point_condition D [a; b; d; c] t = four_point_condition D [a; b; c; d] t.
Proof.
  intros Hq.
  assert (Hq' : valid_quartet n [a; b; d; c])
    by (eapply valid_quartet_permutation;
        [apply perm_skip, perm_skip, perm_swap | exact Hq]).
  reorder a b c d Hq.
  rewrite (two_largest_close_swap23 (cell D a b + cell D c d)).
  apply two_largest_close_compat.
  - rewrite (D_symmetric d c) by assumption. reflexivity.
  - reflexivity.
  - reflexivity.
Qed.

Lemma four_point_condition_transposition (l1 l2 : list Z) (x y : Z) :
  valid_quartet n (l1 ++ y :: x :: l2) ->
  four_point_condition D (l1 ++ x :: y :: l2) t
  = four_point_condition D (l1 ++ y :: x :: l2) t.
Proof.
  intros Hq. pose proof Hq as (Hlen & _).
  rewrite length_app in Hlen. cbn [length] in Hlen.
  destruct l1 as [| a [| b [| e l1]]]; cbn [length] in Hlen.
  - destruct l2 as [| c [| d [| e l2]]]; cbn [length] in Hlen; try lia.
    cbn [app] in *. now apply four_point_condition_swap01.
  - destruct l2 as [| d [| e l2]]; cbn [length] in Hlen; try lia.
    cbn [app] in *. now apply four_point_condition_swap12.
  - destruct l2 as [| e l2]; cbn [length] in Hlen; try lia.
    cbn [app] in *. now apply four_point_condition_swap23.
  - lia.
Qed.

Lemma four_point_condition_permutation (q q' : list Z) :
  Permutation q q' -> valid_quartet n q ->
  four_point_condition D q' t = four_point_condition D q t.
Proof.
  intros HP. induction HP as [l | x y l1 l2 | l l' l'' H1 IH1 H2 IH2]
    using Permutation_ind_transp; intros Hq.
  - reflexivity.
  - now apply four_point_condition_transposition.
  - rewrite IH2 by (eapply valid_quartet_permutation; eauto).
    now apply IH1.
Qed.

End Reordering.

(** * The claims *)

Ltac concrete_square :=
  split; [reflexivity | repeat constructor].

Ltac concrete_quartet :=
  split; [reflexivity |];
  split; [repeat constructor; cbn [In]; intuition discriminate
         | repeat constructor; unfold valid_index; lia].

(** C1.  [is_additive] does not return the conjunction of the quartet tests:
    on the four items at distance 1 the only quartet passes
    [four_point_condition], and [is_additive] raises [NameError] instead of
    returning [True]. *)
Theorem is_additive_all_ones4_raises :
  Forall (fun q => four_point_condition all_ones4 q default_tolerance = Ok true)
    (combinations (py_range (length all_ones4)) 4)
  /\ is_additive all_ones4 default_tolerance = Raise (NameError "itr").
Proof.
  split.
  - vm_compute. repeat constructor.
  - reflexivity.
Qed.

(** C2.  Every call of [is_additive] raises [NameError], whatever numbers
    the matrix holds: the name [itr] is bound neither in the module nor
    among the builtins, and it is looked up before any quartet is tested,
    whatever the test does. *)
Theorem is_additive_raises_NameError {N : Type} {HN : Number N}
    (D : matrix_of N) (t : N) :
  load_name fpc_namespace "itr" = Raise (NameError "itr")
  /\ is_additive D t = Raise (NameError "itr")
  /\ (forall check : list Z -> result bool,
        is_additive_with check fpc_namespace D = Raise (NameError "itr")).
Proof.
  repeat split.
Qed.

(** C3, amended.  On a matrix of exact numbers: with tolerance 0 the strict
    comparison holds for no sum and [four_point_condition] returns [False]
    on every quartet of four distinct valid indices; with any tolerance
    above 0, two sums that tie at the maximum make the quartet pass. *)
Theorem four_point_condition_exact_ties (D : matrix) (n : nat) (a b c d : Z) :
  is_square D n -> valid_quartet n [a; b; c; d] ->
  four_point_condition D [a; b; c; d] 0%Q = Ok false
  /\ (forall (t x y z : Q),
        (0 < t)%Q ->
        Permutation [x; y; z] (pairing_sums D a b c d) ->
        (x == y)%Q -> (z <= x)%Q ->
        four_point_condition D [a; b; c; d] t = Ok true).
Proof.
  intros HD Hq. split.
  - eapply four_point_condition_nonpositive.
    + now apply (fpc_sums_distinct D n).
    + lra.
  - intros t x y z Ht HP Hxy Hzx.
    rewrite (four_point_condition_distinct D n) by assumption.
    unfold pairing_sums in *. apply largest_repeated3.
    apply (two_largest_close_sorted x y z _ _ _ t HP); [lra | lra |].
    rewrite Qsquare. nra.
Qed.

Lemma four_point_condition_exact_ties_witness :
  four_point_condition all_ones4 [0; 1; 2; 3] 0%Q = Ok false
  /\ four_point_condition all_ones4 [0; 1; 2; 3] default_tolerance = Ok true.
Proof.
  assert (HD : is_square all_ones4 4) by concrete_square.
  assert (Hq : valid_quartet 4 [0; 1; 2; 3]) by concrete_quartet.
  destruct (four_point_condition_exact_ties all_ones4 4 0 1 2 3 HD Hq)
    as [H0 Ht].
  split; [exact H0 |].
  apply (Ht default_tolerance 2 2 2)%Q.
  - reflexivity.
  - apply Permutation_refl.
  - reflexivity.
  - discriminate.
Defined.

(** C3 as stated fails: all three sums tie at 2, and with tolerance 0 the
    quartet does not pass. *)
Lemma four_point_condition_zero_tolerance_counterexample :
  dict_values_of (fpc_sums all_ones4 [0; 1; 2; 3]) = Ok [2; 2; 2]%Q
  /\ four_point_condition all_ones4 [0; 1; 2; 3] 0%Q = Ok false.
Proof. split; reflexivity. Qed.

(** On floats a tie at the maximum need not pass: sums that overflow to
    infinity are not within any tolerance of each other, and a third sum
    that is far below the tie makes [** 2] raise. *)
Lemma float_ties_that_do_not_pass :
  dict_values_of (fpc_sums float_huge [0; 1; 2; 3])
  = Ok [infinity; infinity; infinity]
  /\ four_point_condition float_huge [0; 1; 2; 3] float_default_tolerance
     = Ok false
  /\ dict_values_of (fpc_sums float_far_apart [0; 1; 2; 3])
     = Ok [1e200; 1e200; 0]%float
  /\ four_point_condition float_far_apart [0; 1; 2; 3] float_default_tolerance
     = Raise OverflowError
  /\ four_point_condition float_far_apart [0; 1; 2; 3] 0%float
     = Raise OverflowError.
Proof. repeat split. Qed.




(** C5.  On a matrix of dimension below 4 [is_additive] does not return
    [True]: it raises [NameError], although there is no quartet to test. *)
Theorem is_additive_all_ones3_raises :
  is_square all_ones3 3
  /\ combinations (py_range (length all_ones3)) 4 = []
  /\ is_additive all_ones3 default_tolerance = Raise (NameError "itr")
  /\ is_additive [] default_tolerance = Raise (NameError "itr").
Proof.
  split; [concrete_square |]. repeat split.
Qed.

(** C6.  On a quartet of four distinct valid indices [fpc_sums] returns a
    mapping of exactly three entries: the three pairing sums, each under
    its pair of index pairs. *)
Theorem fpc_sums_three_pairings (D : matrix) (n : nat) (q0 q1 q2 q3 : Z) :
  is_square D n -> valid_quartet n [q0; q1; q2; q3] ->
  exists m,
    fpc_sums D [q0; q1; q2; q3] = Ok m
    /\ length m = 3%nat
    /\ NoDup (dict_keys m)
    /\ m = [(((q0, q1), (q2, q3)), cell D q0 q1 + cell D q2 q3);
            (((q0, q2), (q1, q3)), cell D q0 q2 + cell D q1 q3);
            (((q0, q3), (q1, q2)), cell D q0 q3 + cell D q1 q2)]%Q
    /\ dict_values m = pairing_sums D q0 q1 q2 q3
    /\ Forall (fun '(i, j) => entry D i j = Ok (cell D i j))
         [(q0, q1); (q2, q3); (q0, q2); (q1, q3); (q0, q3); (q1, q2)].
Proof.
  intros HD Hq. eexists.
  split; [now apply (fpc_sums_distinct D n) |].
  destruct (valid_quartet_indices n q0 q1 q2 q3 Hq) as (H0 & H1 & H2 & H3).
  destruct Hq as (_ & Hnd & _).
  inversion Hnd as [| ? ? _ Hnd1]; subst.
  inversion Hnd1 as [| ? ? N1 Hnd2]; subst.
  inversion Hnd2 as [| ? ? N2 _]; subst.
  cbn [In] in N1, N2.
  repeat split.
  - cbn [dict_keys map fst]. repeat constructor; cbn [In]; intros H.
    + destruct H as [E | [E | []]]; inversion E; subst; tauto.
    + destruct H as [E | []]; inversion E; subst; tauto.
    + exact H.
  - repeat constructor; now apply (entry_valid D n).
Qed.

Lemma fpc_sums_three_pairings_witness :
  exists m,
    fpc_sums two_pairs [0; 1; 2; 3] = Ok m
    /\ length m = 3%nat
    /\ NoDup (dict_keys m)
    /\ m = [(((0, 1), (2, 3)), (cell two_pairs 0 1 + cell two_pairs 2 3)%Q);
            (((0, 2), (1, 3)), (cell two_pairs 0 2 + cell two_pairs 1 3)%Q);
            (((0, 3), (1, 2)), (cell two_pairs 0 3 + cell two_pairs 1 2)%Q)]
    /\ dict_values m = pairing_sums two_pairs 0 1 2 3
    /\ Forall (fun '(i, j) => entry two_pairs i j = Ok (cell two_pairs i j))
         [(0, 1); (2, 3); (0, 2); (1, 3); (0, 3); (1, 2)].
Proof.
  apply (fpc_sums_three_pairings two_pairs 4 0 1 2 3).
  - concrete_square.
  - concrete_quartet.
Defined.

(** C7, amended.  On a square matrix of dimension [n], a quartet of fewer
    than four items and a quartet of four items one of which is outside
    [-n..n-1] raise [IndexError]; duplicates are not looked for: four valid
    indices always give a mapping, of fewer than three entries exactly when
    the second index equals the third or the third equals the fourth. *)
Theorem fpc_sums_invalid_quartet (D : matrix) (n : nat) :
  is_square D n ->
  (forall q, (length q < 4)%nat -> fpc_sums D q = Raise IndexError)
  /\ (forall a b c d,
        Exists (out_of_range n) [a; b; c; d] ->
        fpc_sums D [a; b; c; d] = Raise IndexError)
  /\ (forall a b c d,
        Forall (valid_index n) [a; b; c; d] ->
        exists m, fpc_sums D [a; b; c; d] = Ok m
                  /\ (1 <= length m <= 3)%nat
                  /\ ((length m < 3)%nat <-> b = c \/ c = d)).
Proof.
  intros HD. repeat split.
  - intros q Hq. now apply fpc_sums_short.
  - intros a b c d Hex. now apply (fpc_sums_out_of_range D n).
  - intros a b c d Hv.
    inversion Hv as [| ? ? Ha Hv1]; subst.
    inversion Hv1 as [| ? ? Hb Hv2]; subst.
    inversion Hv2 as [| ? ? Hc Hv3]; subst.
    inversion Hv3 as [| ? ? Hd _]; subst.
    now apply (fpc_sums_valid_length D n).
Qed.

Lemma fpc_sums_invalid_quartet_witness :
  fpc_sums all_ones4 [0; 1; 2] = Raise IndexError
  /\ fpc_sums all_ones4 [0; 1; 2; 4] = Raise IndexError
  /\ fpc_sums all_ones4 [0; 1; -5; 3] = Raise IndexError
  /\ exists m, fpc_sums all_ones4 [0; 0; 1; 1] = Ok m /\ (length m < 3)%nat.
Proof.
  assert (HD : is_square all_ones4 4) by concrete_square.
  destruct (fpc_sums_invalid_quartet all_ones4 4 HD) as (Hshort & Hout & Hin).
  split; [| split; [| split]].
  - apply Hshort. cbn [length]. lia.
  - apply Hout. do 3 apply Exists_cons_tl. apply Exists_cons_hd.
    right. cbn. lia.
  - apply Hout. do 2 apply Exists_cons_tl. apply Exists_cons_hd.
    left. cbn. lia.
  - destruct (Hin 0 0 1 1) as (m & Hm & _ & Hlen).
    + repeat constructor; unfold valid_index; lia.
    + exists m. split; [exact Hm |]. apply Hlen. right. reflexivity.
Defined.

(** C7 as stated fails: the quartet (0, 0, 1, 1) has a duplicated valid
    index, and [fpc_sums] raises nothing and returns two sums. *)
Lemma fpc_sums_duplicate_counterexample :
  is_square all_ones4 4
  /\ ~ valid_quartet 4 [0; 0; 1; 1]
  /\ fpc_sums all_ones4 [0; 0; 1; 1]
     = Ok [(((0, 0), (1, 1)), 0%Q); (((0, 1), (0, 1)), 2%Q)].
Proof.
  split; [concrete_square |]. split; [| reflexivity].
  intros (_ & Hnd & _). inversion Hnd as [| ? ? N _]; subst.
  apply N. left. reflexivity.
Qed.

(** C8.  With a tolerance below 0, on exact numbers, the comparison is false
    for every sum and [four_point_condition] returns [False] on every
    quartet it gets sums for; [is_additive] does not return [False]: it
    raises [NameError]. *)
Theorem negative_tolerance (t : Q) :
  (t < 0)%Q ->
  (forall s_max s : Q, Qltb ((s_max - s) ^ 2) t = false)
  /\ (forall D q m, fpc_sums D q = Ok m -> four_point_condition D q t = Ok false)
  /\ (forall D n a b c d,
        is_square D n -> Forall (valid_index n) [a; b; c; d] ->
        four_point_condition D [a; b; c; d] t = Ok false)
  /\ (forall D, is_additive D t = Raise (NameError "itr")).
Proof.
  intros Ht. repeat split.
  - intros s_max s. apply Qltb_square_nonpositive. lra.
  - intros D q m Hm. eapply four_point_condition_nonpositive; eauto. lra.
  - intros D n a b c d HD Hv.
    inversion Hv as [| ? ? Ha Hv1]; subst.
    inversion Hv1 as [| ? ? Hb Hv2]; subst.
    inversion Hv2 as [| ? ? Hc Hv3]; subst.
    inversion Hv3 as [| ? ? Hd _]; subst.
    destruct (fpc_sums_valid_length D n a b c d) as (m & Hm & _); try assumption.
    eapply four_point_condition_nonpositive; eauto. lra.
Qed.

Lemma negative_tolerance_witness :
  four_point_condition all_ones4 [0; 1; 2; 3] (-1)%Q = Ok false
  /\ is_additive all_ones4 (-1)%Q = Raise (NameError "itr").
Proof.
  assert (Ht : (-1 < 0)%Q) by reflexivity.
  destruct (negative_tolerance (-1) Ht) as (_ & _ & Hq & Hadd).
  split; [| apply Hadd].
  apply (Hq all_ones4 4%nat).
  - concrete_square.
  - repeat constructor; unfold valid_index; lia.
Defined.

(** C9, amended.  On a matrix of exact numbers, the count of sums within
    tolerance of the largest is at least 2 exactly when the two largest sums
    are within tolerance of each other. *)
Theorem four_point_condition_two_largest
    (D : matrix) (n : nat) (a b c d : Z) (t s1 s2 s3 : Q) :
  is_square D n -> valid_quartet n [a; b; c; d] ->
  Permutation [s1; s2; s3] (pairing_sums D a b c d) ->
  (s3 <= s2)%Q -> (s2 <= s1)%Q ->
  exists r, four_point_condition D [a; b; c; d] t = Ok r
            /\ (r = true <-> ((s1 - s2) ^ 2 < t)%Q).
Proof.
  intros HD Hq HP H32 H21.
  rewrite (four_point_condition_distinct D n) by assumption.
  unfold pairing_sums in *.
  pose proof (two_largest_close_sorted s1 s2 s3 _ _ _ t HP H32 H21) as Hs.
  pose proof (largest_repeated3
                (cell D a b + cell D c d) (cell D a c + cell D b d)
                (cell D a d + cell D b c) t) as Hl.
  destruct (largest_repeated3_returns
              (cell D a b + cell D c d) (cell D a c + cell D b d)
              (cell D a d + cell D b c) t) as [r Hr].
  exists r. split; [exact Hr |]. rewrite Hr in Hl.
  rewrite <- Hs, <- Hl.
  split; [intros ->; reflexivity | intros E; now inversion E].
Qed.

Lemma four_point_condition_two_largest_witness :
  exists r, four_point_condition two_pairs [0; 1; 2; 3] default_tolerance = Ok r
            /\ (r = true <-> ((20 - 20) ^ 2 < default_tolerance)%Q).
Proof.
  apply (four_point_condition_two_largest two_pairs 4 0 1 2 3
           default_tolerance 20 20 4).
  - concrete_square.
  - concrete_quartet.
  - change (pairing_sums two_pairs 0 1 2 3) with [4; 20; 20]%Q.
    apply (Permutation_cons_app [4] [20] 20)%Q.
    apply perm_swap.
  - discriminate.
  - discriminate.
Defined.

(** C9 as stated fails on floats: the two largest sums of the quartet are
    both 1e200, within the default tolerance of each other, and the test
    raises [OverflowError] on the third sum instead of returning [True]. *)
Lemma four_point_condition_float_overflow_counterexample :
  dict_values_of (fpc_sums float_far_apart [0; 1; 2; 3])
  = Ok [1e200; 1e200; 0]%float
  /\ within_tolerance 1e200%float float_default_tolerance 1e200%float = Ok true
  /\ four_point_condition float_far_apart [0; 1; 2; 3] float_default_tolerance
     = Raise OverflowError.
Proof. repeat split. Qed.

(** C10.  In the matrix of five items all at distance 1, every quartet has
    its three sums equal to 2 and passes with the default tolerance;
    [is_additive] does not return [True]: it raises [NameError]. *)
Theorem is_additive_all_ones5_raises :
  Forall (fun q =>
            dict_values_of (fpc_sums all_ones5 q) = Ok [2; 2; 2]%Q
            /\ four_point_condition all_ones5 q default_tolerance = Ok true)
    (combinations (py_range (length all_ones5)) 4)
  /\ is_additive all_ones5 default_tolerance = Raise (NameError "itr").
Proof.
  split.
  - vm_compute. repeat constructor.
  - reflexivity.
Qed.

(** * Further properties of the module *)

(** ** Indices counted from the end, and quartets that are too long *)

Lemma getitem_in_range {A : Type} (l : list A) (i : Z) (d : A) :
  in_range (length l) i ->
  getitem l i = Ok (nth (Z.to_nat (wrap_index (length l) i)) l d).
Proof.
  intros [Hlo Hhi]. unfold wrap_index.
  destruct (Z.ltb_spec i 0) as [Hneg | Hpos].
  - unfold getitem.
    assert (E1 : (0 <=? i) = false) by (apply Z.leb_gt; exact Hneg).
    assert (E2 : (- Z.of_nat (length l) <=? i) = true) by (apply Z.leb_le; exact Hlo).
    assert (E3 : (i <? 0) = true) by (apply Z.ltb_lt; exact Hneg).
    rewrite E1, E2, E3. cbn [andb].
    assert (Hn : (Z.to_nat (Z.of_nat (length l) + i) < length l)%nat) by lia.
    rewrite (nth_error_nth' l d Hn). reflexivity.
  - apply getitem_valid. lia.
Qed.

Lemma wrap_index_valid (n : nat) (i : Z) :
  in_range n i -> valid_index n (wrap_index n i).
Proof.
  intros [Hlo Hhi]. unfold wrap_index, valid_index.
  destruct (Z.ltb_spec i 0); lia.
Qed.

Lemma entry_in_range (D : matrix) (n : nat) (i j : Z) :
  is_square D n -> in_range n i -> in_range n j ->
  entry D i j = Ok (cell D (wrap_index n i) (wrap_index n j)).
Proof.
  intros HD Hi Hj. unfold entry, cell.
  pose proof HD as [Hlen _].
  rewrite (getitem_in_range D i []) by (rewrite Hlen; exact Hi).
  cbn [bind]. rewrite Hlen.
  pose proof (square_row D n (wrap_index n i) HD (wrap_index_valid n i Hi)) as Hrow.
  rewrite (getitem_in_range _ j 0%Q) by (rewrite Hrow; exact Hj).
  rewrite Hrow. reflexivity.
Qed.

Lemma dict_set_three (k1 k2 k3 : pairing_key) (v1 v2 v3 : Q) :
  key_eqb k1 k2 = false -> key_eqb k1 k3 = false -> key_eqb k2 k3 = false ->
  dict_set (dict_set [(k1, v1)] k2 v2) k3 v3 = [(k1, v1); (k2, v2); (k3, v3)].
Proof.
  intros E12 E13 E23. cbn [dict_set]. rewrite E12. cbn [dict_set].
  rewrite E13, E23. reflexivity.
Qed.

Lemma pairing_keys_distinct (a b c d : Z) :
  b <> c -> c <> d ->
  key_eqb ((a, b), (c, d)) ((a, c), (b, d)) = false
  /\ key_eqb ((a, b), (c, d)) ((a, d), (b, c)) = false
  /\ key_eqb ((a, c), (b, d)) ((a, d), (b, c)) = false.
Proof.
  intros Hbc Hcd. unfold key_eqb.
  assert (E1 : (b =? c) = false) by now apply Z.eqb_neq.
  assert (E2 : (c =? b) = false) by (apply Z.eqb_neq; congruence).
  assert (E3 : (c =? d) = false) by now apply Z.eqb_neq.
  rewrite E1, E2, E3, !andb_false_r. cbn [andb]. auto.
Qed.

(** X1.  Indices may be counted from the end: on a square matrix of
    dimension [n], four indices of [-n..n-1] whose second and third, and
    third and fourth, differ give three sums, read at the positions the
    indices stand for and stored under the indices as they were given. *)
Theorem fpc_sums_negative_indices (D : matrix) (n : nat) (a b c d : Z) :
  is_square D n -> Forall (in_range n) [a; b; c; d] -> b <> c -> c <> d ->
  let w := wrap_index n in
  fpc_sums D [a; b; c; d]
  = Ok [(((a, b), (c, d)), (cell D (w a) (w b) + cell D (w c) (w d))%Q);
        (((a, c), (b, d)), (cell D (w a) (w c) + cell D (w b) (w d))%Q);
        (((a, d), (b, c)), (cell D (w a) (w d) + cell D (w b) (w c))%Q)].
Proof.
  intros HD Hv Hbc Hcd w.
  inversion Hv as [| ? ? Ha Hv1]; subst.
  inversion Hv1 as [| ? ? Hb Hv2]; subst.
  inversion Hv2 as [| ? ? Hc Hv3]; subst.
  inversion Hv3 as [| ? ? Hd _]; subst.
  unfold fpc_sums. rewrite map_indices_quartet. cbn [bind collect_sums].
  rewrite !(entry_in_range D n) by assumption. cbn [bind].
  destruct (pairing_keys_distinct a b c d Hbc Hcd) as (E12 & E13 & E23).
  f_equal. now apply dict_set_three.
Qed.

Lemma fpc_sums_negative_indices_witness :
  fpc_sums two_pairs [0; -3; 2; -1]
  = Ok [(((0, -3), (2, -1)), (cell two_pairs 0 1 + cell two_pairs 2 3)%Q);
        (((0, 2), (-3, -1)), (cell two_pairs 0 2 + cell two_pairs 1 3)%Q);
        (((0, -1), (-3, 2)), (cell two_pairs 0 3 + cell two_pairs 1 2)%Q)].
Proof.
  apply (fpc_sums_negative_indices two_pairs 4 0 (-3) 2 (-1)).
  - concrete_square.
  - repeat constructor; unfold in_range; cbn; lia.
  - discriminate.
  - discriminate.
Defined.

(** X2.  Only the first four items of a quartet are read: further items
    change neither the sums nor the result of the test, and raise nothing,
    whatever numbers the matrix holds. *)
Theorem extra_items_ignored {N : Type} {HN : Number N} (D : matrix_of N)
    (a b c d : Z) (rest : list Z) (t : N) :
  fpc_sums D (a :: b :: c :: d :: rest) = fpc_sums D [a; b; c; d]
  /\ four_point_condition D (a :: b :: c :: d :: rest) t
     = four_point_condition D [a; b; c; d] t.
Proof.
  assert (E : fpc_sums D (a :: b :: c :: d :: rest) = fpc_sums D [a; b; c; d]).
  { unfold fpc_sums. rewrite map_indices_quartet.
    cbn [mapM _fpc_permutations map_indices].
    rewrite (getitem_valid (a :: b :: c :: d :: rest) 0 0) by (cbn [length]; lia).
    rewrite (getitem_valid (a :: b :: c :: d :: rest) 1 0) by (cbn [length]; lia).
    rewrite (getitem_valid (a :: b :: c :: d :: rest) 2 0) by (cbn [length]; lia).
    rewrite (getitem_valid (a :: b :: c :: d :: rest) 3 0) by (cbn [length]; lia).
    reflexivity. }
  split; [exact E |]. unfold four_point_condition. now rewrite E.
Qed.

(** ** What the functions raise *)












(** ** The tolerance *)

Lemma py_sum_bool_shift (l : list bool) (acc : Z) :
  fold_left (fun a (b : bool) => a + (if b then 1 else 0)) l acc
  = acc + py_sum_bool l.
Proof.
  unfold py_sum_bool. revert acc.
  induction l as [| b r IH]; intros acc; cbn [fold_left].
  - lia.
  - rewrite IH, (IH (0 + _)). lia.
Qed.

Lemma py_sum_bool_cons (b : bool) (l : list bool) :
  py_sum_bool (b :: l) = (if b then 1 else 0) + py_sum_bool l.
Proof.
  unfold py_sum_bool at 1. cbn [fold_left]. now rewrite py_sum_bool_shift.
Qed.

Lemma py_sum_bool_monotone {A : Type} (f g : A -> bool) (l : list A) :
  (forall x, f x = true -> g x = true) ->
  py_sum_bool (map f l) <= py_sum_bool (map g l).
Proof.
  intros H. induction l as [| x r IH]; cbn [map].
  - reflexivity.
  - rewrite !py_sum_bool_cons. specialize (H x).
    destruct (f x), (g x); try lia.
    all: specialize (H eq_refl); discriminate.
Qed.

Lemma largest_repeated_monotone (sums : list Q) (t t' : Q) :
  (t <= t')%Q ->
  largest_repeated sums t = Ok true -> largest_repeated sums t' = Ok true.
Proof.
  intros Ht. rewrite !largest_repeated_exact.
  destruct (py_max sums) as [s_max |]; cbn [bind]; [| discriminate].
  pose proof (py_sum_bool_monotone
                (fun s => Qltb ((s_max - s) ^ 2) t)
                (fun s => Qltb ((s_max - s) ^ 2) t') sums) as Hm.
  destruct (Z.ltb_spec (py_sum_bool (map (fun s => Qltb ((s_max - s) ^ 2) t) sums)) 2);
    [discriminate |].
  intros _.
  destruct (Z.ltb_spec (py_sum_bool (map (fun s => Qltb ((s_max - s) ^ 2) t') sums)) 2);
    [| reflexivity].
  exfalso.
  assert (Hle : py_sum_bool (map (fun s => Qltb ((s_max - s) ^ 2) t) sums)
                <= py_sum_bool (map (fun s => Qltb ((s_max - s) ^ 2) t') sums)).
  { apply Hm. intros s Hs. apply Qltb_lt in Hs. apply Qltb_lt. lra. }
  lia.
Qed.

(** X4.  A larger tolerance accepts more: a quartet that passes with
    tolerance [t] passes with every tolerance above [t], whatever the matrix
    and the quartet. *)
Theorem four_point_condition_tolerance_monotone
    (D : matrix) (q : list Z) (t t' : Q) :
  (t <= t')%Q ->
  four_point_condition D q t = Ok true -> four_point_condition D q t' = Ok true.
Proof.
  intros Ht. unfold four_point_condition.
  destruct (fpc_sums D q) as [m |]; cbn [bind]; [| discriminate].
  now apply largest_repeated_monotone.
Qed.

Lemma four_point_condition_tolerance_monotone_witness :
  four_point_condition two_pairs [0; 1; 2; 3] 5%Q = Ok true.
Proof.
  apply (four_point_condition_tolerance_monotone two_pairs [0; 1; 2; 3]
           default_tolerance 5).
  - discriminate.
  - reflexivity.
Defined.

(** X5.  A quartet whose last three items are one and the same valid index
    gives a single sum, and the test fails whatever the tolerance: one sum
    cannot be counted twice. *)
Theorem repeated_index_fails (D : matrix) (n : nat) (a b : Z) (t : Q) :
  is_square D n -> valid_index n a -> valid_index n b ->
  fpc_sums D [a; b; b; b]
  = Ok [(((a, b), (b, b)), (cell D a b + cell D b b)%Q)]
  /\ four_point_condition D [a; b; b; b] t = Ok false.
Proof.
  intros HD Ha Hb.
  assert (E : fpc_sums D [a; b; b; b]
              = Ok [(((a, b), (b, b)), (cell D a b + cell D b b)%Q)]).
  { rewrite (fpc_sums_valid D n) by assumption.
    repeat (cbn [dict_set key_eqb andb]; rewrite ?Z.eqb_refl). reflexivity. }
  split; [exact E |].
  unfold four_point_condition. rewrite E. cbn [bind dict_values map snd].
  rewrite largest_repeated_exact. unfold py_max, bind. cbn [map max_from].
  destruct (Qltb _ t); reflexivity.
Qed.

Lemma repeated_index_fails_witness :
  fpc_sums two_pairs [0; 1; 1; 1]
  = Ok [(((0, 1), (1, 1)), (cell two_pairs 0 1 + cell two_pairs 1 1)%Q)]
  /\ four_point_condition two_pairs [0; 1; 1; 1] 1000%Q = Ok false.
Proof.
  apply (repeated_index_fails two_pairs 4 0 1 1000).
  - concrete_square.
  - unfold valid_index; lia.
  - unfold valid_index; lia.
Defined.

Lemma square_lt_iff (u e : Q) :
  (0 <= u)%Q -> (0 < e)%Q -> (u ^ 2 < e ^ 2 <-> u < e)%Q.
Proof. intros Hu He. rewrite !Qsquare. split; intro H; nra. Qed.

(** X6.  On a matrix of exact numbers the tolerance bounds the square of
    the gap: with tolerance [e^2] a quartet passes exactly when its two
    largest sums differ by less than [e]. *)
Theorem four_point_condition_effective_tolerance
    (D : matrix) (n : nat) (a b c d : Z) (e s1 s2 s3 : Q) :
  is_square D n -> valid_quartet n [a; b; c; d] ->
  Permutation [s1; s2; s3] (pairing_sums D a b c d) ->
  (s3 <= s2)%Q -> (s2 <= s1)%Q -> (0 < e)%Q ->
  four_point_condition D [a; b; c; d] (e ^ 2)%Q = Ok true <-> (s1 - s2 < e)%Q.
Proof.
  intros HD Hq HP H32 H21 He.
  rewrite (four_point_condition_distinct D n) by assumption.
  unfold pairing_sums in *. rewrite largest_repeated3.
  rewrite (two_largest_close_sorted s1 s2 s3 _ _ _ (e ^ 2) HP H32 H21).
  apply square_lt_iff; lra.
Qed.

Lemma four_point_condition_effective_tolerance_witness :
  four_point_condition two_pairs [0; 1; 2; 3] ((1 # 10) ^ 2)%Q = Ok true
  <-> (20 - 20 < 1 # 10)%Q.
Proof.
  apply (four_point_condition_effective_tolerance two_pairs 4 0 1 2 3
           (1 # 10) 20 20 4).
  - concrete_square.
  - concrete_quartet.
  - change (pairing_sums two_pairs 0 1 2 3) with [4; 20; 20]%Q.
    apply (Permutation_cons_app [4] [20] 20)%Q.
    apply perm_swap.
  - discriminate.
  - discriminate.
  - reflexivity.
Defined.

(** X7.  The tree of the module's docstring, with exact numbers: leaves [a],
    [b] on one side of an inner edge of length [e >= 0] and [c], [d] on the
    other, with leaf edges [wa], [wb], [wc], [wd].  When the six distances
    of the quartet are the path lengths of this tree, the quartet passes
    with every tolerance above 0. *)
Theorem four_point_condition_quartet_tree
    (D : matrix) (n : nat) (a b c d : Z) (wa wb wc wd e t : Q) :
  is_square D n -> valid_quartet n [a; b; c; d] ->
  (0 <= e)%Q -> (0 < t)%Q ->
  (cell D a b == wa + wb)%Q -> (cell D c d == wc + wd)%Q ->
  (cell D a c == wa + e + wc)%Q -> (cell D b d == wb + e + wd)%Q ->
  (cell D a d == wa + e + wd)%Q -> (cell D b c == wb + e + wc)%Q ->
  four_point_condition D [a; b; c; d] t = Ok true.
Proof.
  intros HD Hq He Ht Hab Hcd Hac Hbd Had Hbc.
  rewrite (four_point_condition_distinct D n) by assumption.
  unfold pairing_sums. apply largest_repeated3.
  unfold two_largest_close. rewrite !Qsquare.
  rewrite Hab, Hcd, Hac, Hbd, Had, Hbc.
  right. right. repeat split; nra.
Qed.

Lemma four_point_condition_quartet_tree_witness :
  four_point_condition two_pairs [0; 1; 2; 3] default_tolerance = Ok true.
Proof.
  apply (four_point_condition_quartet_tree two_pairs 4 0 1 2 3 1 1 1 1 8);
    try reflexivity.
  - concrete_square.
  - concrete_quartet.
  - discriminate.
Defined.

(** ** The mapping that fpc_sums builds *)

Lemma key_eqb_eq (k1 k2 : pairing_key) : key_eqb k1 k2 = true <-> k1 = k2.
Proof.
  destruct k1 as [[a b] [c d]], k2 as [[a' b'] [c' d']]. unfold key_eqb.
  rewrite !andb_true_iff, !Z.eqb_eq. split.
  - intros [[[-> ->] ->] ->]. reflexivity.
  - intros E. inversion E. auto.
Qed.

Lemma dict_set_keys (m : dict) (k : pairing_key) (v : Q) :
  (In k (dict_keys m) /\ dict_keys (dict_set m k v) = dict_keys m)
  \/ (~ In k (dict_keys m) /\ dict_keys (dict_set m k v) = dict_keys m ++ [k]).
Proof.
  induction m as [| [k' v'] r IH]; cbn [dict_set dict_keys map fst app In].
  - right. split; [tauto | reflexivity].
  - destruct (key_eqb k' k) eqn:E.
    + apply key_eqb_eq in E. subst. left. split; [auto | reflexivity].
    + assert (Hne : k' <> k).
      { intro Heq. apply key_eqb_eq in Heq. congruence. }
      cbn [map fst]. fold (dict_keys r). fold (dict_keys (dict_set r k v)).
      destruct IH as [[Hin ->] | [Hnin ->]].
      * left. split; [auto | reflexivity].
      * right. split; [tauto | reflexivity].
Qed.

Lemma dict_set_NoDup (m : dict) (k : pairing_key) (v : Q) :
  NoDup (dict_keys m) -> NoDup (dict_keys (dict_set m k v)).
Proof.
  intros H. destruct (dict_set_keys m k v) as [[_ ->] | [Hnin ->]].
  - exact H.
  - apply NoDup_app; [exact H | repeat constructor; intros [] |].
    intros x Hx [<- | []]. contradiction.
Qed.

Lemma dict_set_Forall (P : pairing_key * Q -> Prop) (m : dict)
    (k : pairing_key) (v : Q) :
  P (k, v) -> Forall P m -> Forall P (dict_set m k v).
Proof.
  intros Hk. induction 1 as [| [k' v'] r Hx Hr IH]; cbn [dict_set].
  - repeat constructor. exact Hk.
  - destruct (key_eqb k' k) eqn:E.
    + apply key_eqb_eq in E. subst. constructor; assumption.
    + constructor; assumption.
Qed.

Lemma collect_sums_invariant (D : matrix) (perms : list (Z * Z * Z * Z))
    (acc m : dict) :
  collect_sums D perms acc = Ok m ->
  NoDup (dict_keys acc) -> Forall (sum_of_its_key D) acc ->
  NoDup (dict_keys m) /\ Forall (sum_of_its_key D) m
  /\ (length m <= length acc + length perms)%nat.
Proof.
  revert acc. induction perms as [| [[[i j] k] l] r IH]; intros acc H Hnd Hall;
    cbn [collect_sums] in H.
  - inversion H; subst. cbn [length]. repeat split; [assumption .. | lia].
  - destruct (entry D i j) as [x |] eqn:E1; cbn [bind] in H; try discriminate.
    destruct (entry D k l) as [y |] eqn:E2; cbn [bind] in H; try discriminate.
    apply IH in H.
    + destruct H as (H1 & H2 & H3). repeat split; try assumption.
      pose proof (dict_set_length acc ((i, j), (k, l)) (num_add x y)).
      cbn [length]. lia.
    + now apply dict_set_NoDup.
    + apply dict_set_Forall; [| exact Hall].
      cbn. exists x, y. auto.
Qed.

(** X8.  Whatever the matrix and the quartet, a mapping returned by
    [fpc_sums] has one to three entries under different keys, and each value
    is the sum of the two entries of the matrix that its key names: a
    repeated key replaces a sum by an equal one. *)
Theorem fpc_sums_mapping_invariant (D : matrix) (q : list Z) (m : dict) :
  fpc_sums D q = Ok m ->
  (1 <= length m <= 3)%nat
  /\ NoDup (dict_keys m)
  /\ Forall (sum_of_its_key D) m.
Proof.
  intros H. pose proof H as H'. unfold fpc_sums in H.
  destruct (mapM (map_indices q) _fpc_permutations) as [perms |] eqn:E;
    cbn [bind] in H; try discriminate.
  apply mapM_length in E. cbn [length _fpc_permutations] in E.
  apply collect_sums_invariant in H; [| constructor | constructor].
  destruct H as (Hnd & Hall & Hlen). cbn [length] in Hlen.
  apply fpc_sums_nonempty in H'.
  repeat split; try assumption; try lia.
  destruct m; [contradiction H'; reflexivity | cbn [length]; lia].
Qed.

Lemma fpc_sums_mapping_invariant_witness :
  (1 <= 2 <= 3)%nat
  /\ NoDup [((0, 0), (1, 1)); ((0, 1), (0, 1))]
  /\ Forall (sum_of_its_key all_ones4)
       [(((0, 0), (1, 1)), 0%Q); (((0, 1), (0, 1)), 2%Q)].
Proof.
  apply (fpc_sums_mapping_invariant all_ones4 [0; 0; 1; 1]
           [(((0, 0), (1, 1)), 0%Q); (((0, 1), (0, 1)), 2%Q)]).
  reflexivity.
Defined.

(** ** is_additive where [itr] is bound *)

Lemma is_additive_in_bound {N : Type} {HN : Number N} (ns : namespace)
    (D : matrix_of N) (t : N) :
  binds_itertools ns ->
  is_additive_in ns D t
  = py_all (fun q => four_point_condition D q t)
      (combinations (py_range (length D)) 4).
Proof.
  intros [Hitr Hb].
  inversion Hb as [| ? ? [o1 H1] Hb1]; subst.
  inversion Hb1 as [| ? ? [o2 H2] Hb2]; subst.
  inversion Hb2 as [| ? ? [o3 H3] Hb3]; subst.
  inversion Hb3 as [| ? ? [o4 H4] _]; subst.
  unfold is_additive_in, is_additive_with.
  rewrite H1, H2, Hitr, H3, H4. reflexivity.
Qed.

Lemma with_itertools_binds : binds_itertools (with_itertools fpc_namespace).
Proof.
  split; [reflexivity |].
  repeat constructor; eexists; reflexivity.
Defined.

Lemma insert_sorted (x : Z) (l : list Z) :
  StronglySorted Z.lt l -> ~ In x l ->
  exists l', Permutation (x :: l) l' /\ StronglySorted Z.lt l'.
Proof.
  induction 1 as [| y r Hr IH Hy]; intros Hx.
  - exists [x]. split; [apply Permutation_refl | repeat constructor].
  - destruct (Z.lt_trichotomy x y) as [Hlt | [Heq | Hgt]].
    + exists (x :: y :: r). split; [apply Permutation_refl |].
      constructor; [constructor; assumption |].
      constructor; [exact Hlt |].
      rewrite Forall_forall in *. intros z Hz. specialize (Hy z Hz). lia.
    + exfalso. apply Hx. left. congruence.
    + destruct IH as (r' & HP & Hs); [intro; apply Hx; right; assumption |].
      exists (y :: r'). split.
      * eapply perm_trans; [apply perm_swap | apply perm_skip; exact HP].
      * constructor; [exact Hs |].
        eapply Permutation_Forall; [exact HP |].
        constructor; [lia | exact Hy].
Qed.

Lemma sorted_permutation (l : list Z) :
  NoDup l -> exists l', Permutation l l' /\ StronglySorted Z.lt l'.
Proof.
  induction 1 as [| x r Hx Hr IH].
  - exists []. split; constructor.
  - destruct IH as (r' & HP & Hs).
    destruct (insert_sorted x r' Hs) as (l' & HP' & Hs').
    + intro Hin. apply Hx. eapply Permutation_in; [apply Permutation_sym |]; eauto.
    + exists l'. split; [| exact Hs'].
      eapply perm_trans; [apply perm_skip; exact HP | exact HP'].
Qed.

(** Every quartet of distinct valid indices is a reordering of an enumerated
    one. *)
Lemma valid_quartet_enumerated (n : nat) (q : list Z) :
  valid_quartet n q ->
  exists q', Permutation q' q /\ In q' (combinations (py_range n) 4).
Proof.
  intros Hq. pose proof Hq as (Hlen & Hnd & Hv).
  destruct (sorted_permutation q Hnd) as (q' & HP & Hs).
  exists q'. split; [now apply Permutation_sym |].
  assert (Hlen' : length q' = 4%nat)
    by (rewrite <- Hlen; symmetry; now apply Permutation_length).
  rewrite <- Hlen'. apply combinations_complete.
  - apply py_range_sorted.
  - exact Hs.
  - intros i Hi. apply py_range_valid.
    rewrite Forall_forall in Hv. apply Hv.
    eapply Permutation_in; [apply Permutation_sym |]; eauto.
Qed.

(** X9.  Where [itr] is [itertools], [is_additive] on a square symmetric
    matrix of exact numbers returns a boolean, and it is [True] exactly when
    every quartet of distinct valid indices, in any order, passes
    [four_point_condition]: testing each combination once is enough. *)
Theorem is_additive_all_valid_quartets
    (ns : namespace) (D : matrix) (n : nat) (t : Q) :
  binds_itertools ns -> is_square D n -> symmetric D n ->
  (exists b, is_additive_in ns D t = Ok b)
  /\ (is_additive_in ns D t = Ok true <->
      forall q, valid_quartet n q -> four_point_condition D q t = Ok true).
Proof.
  intros Hns HD Hsym. rewrite (is_additive_in_bound ns D t Hns).
  pose proof HD as [Hlen _]. rewrite Hlen. split.
  - exists (forallb (fun q => fpc_holds D q t) (combinations (py_range n) 4)).
    apply py_all_forallb, Forall_forall. intros q Hq.
    apply (four_point_condition_returns D n); [exact HD |].
    now apply quartets_valid.
  - rewrite py_all_true_iff, Forall_forall. split.
    + intros H q Hq.
      destruct (valid_quartet_enumerated n q Hq) as (q' & HP & Hin).
      rewrite (four_point_condition_permutation D n t HD Hsym q' q HP).
      * now apply H.
      * now apply quartets_valid.
    + intros H q Hq. apply H. now apply quartets_valid.
Qed.

Lemma all_ones5_symmetric : symmetric all_ones5 5.
Proof.
  intros i j [Hi0 Hi1] [Hj0 Hj1].
  assert (Ei : i = 0 \/ i = 1 \/ i = 2 \/ i = 3 \/ i = 4) by lia.
  assert (Ej : j = 0 \/ j = 1 \/ j = 2 \/ j = 3 \/ j = 4) by lia.
  destruct Ei as [-> | [-> | [-> | [-> | ->]]]];
    destruct Ej as [-> | [-> | [-> | [-> | ->]]]]; reflexivity.
Defined.

Lemma is_additive_all_valid_quartets_witness :
  (exists b,
     is_additive_in (with_itertools fpc_namespace) all_ones5 default_tolerance
     = Ok b)
  /\ (is_additive_in (with_itertools fpc_namespace) all_ones5 default_tolerance
      = Ok true <->
      forall q, valid_quartet 5 q ->
                four_point_condition all_ones5 q default_tolerance = Ok true).
Proof.
  apply (is_additive_all_valid_quartets (with_itertools fpc_namespace)
           all_ones5 5 default_tolerance).
  - exact with_itertools_binds.
  - concrete_square.
  - exact all_ones5_symmetric.
Defined.

(** X10.  Where [itr] is [itertools], a matrix with fewer than four rows has
    no quartet and [is_additive] returns [True], whatever the rows hold,
    exact numbers or floats, and whatever the tolerance. *)
Theorem is_additive_small_matrix {N : Type} {HN : Number N} (ns : namespace)
    (D : matrix_of N) (t : N) :
  binds_itertools ns -> (length D < 4)%nat ->
  is_additive_in ns D t = Ok true.
Proof.
  intros Hns Hlen. rewrite (is_additive_in_bound ns D t Hns).
  rewrite combinations_few by (rewrite py_range_length; exact Hlen).
  reflexivity.
Qed.

Lemma is_additive_small_matrix_witness :
  is_additive_in (with_itertools fpc_namespace) [[0; 7]; []; [1]]%Q 0%Q = Ok true.
Proof.
  apply is_additive_small_matrix.
  - exact with_itertools_binds.
  - cbn [length]. lia.
Defined.

(** X11.  Where [itr] is [itertools], a tolerance of 0 or below rejects
    every square matrix of exact numbers of dimension 4 or more, additive or
    not: the first quartet already fails. *)
Theorem is_additive_nonpositive_tolerance
    (ns : namespace) (D : matrix) (n : nat) (t : Q) :
  binds_itertools ns -> is_square D n -> (4 <= n)%nat -> (t <= 0)%Q ->
  is_additive_in ns D t = Ok false.
Proof.
  intros Hns HD Hn Ht. rewrite (is_additive_in_bound ns D t Hns).
  destruct (first_quartet n Hn) as [r Hr].
  pose proof HD as [Hlen _]. rewrite Hlen, Hr. cbn [py_all].
  destruct (fpc_sums_valid_length D n 0 1 2 3) as (m & Hm & _);
    try exact HD; try (unfold valid_index; lia).
  rewrite (four_point_condition_nonpositive D [0; 1; 2; 3] m t Hm Ht).
  reflexivity.
Qed.

Lemma is_additive_nonpositive_tolerance_witness :
  is_additive_in (with_itertools fpc_namespace) all_ones5 0%Q = Ok false.
Proof.
  apply (is_additive_nonpositive_tolerance (with_itertools fpc_namespace)
           all_ones5 5 0).
  - exact with_itertools_binds.
  - concrete_square.
  - lia.
  - discriminate.
Defined.

(** X12.  Where [itr] is [itertools], a matrix that [is_additive] accepts
    with tolerance [t] is accepted with every tolerance above [t]. *)
Theorem is_additive_tolerance_monotone
    (ns : namespace) (D : matrix) (t t' : Q) :
  binds_itertools ns -> (t <= t')%Q ->
  is_additive_in ns D t = Ok true -> is_additive_in ns D t' = Ok true.
Proof.
  intros Hns Ht. rewrite !(is_additive_in_bound ns D _ Hns).
  rewrite !py_all_true_iff, !Forall_forall.
  intros H q Hq. specialize (H q Hq). revert H.
  unfold four_point_condition.
  destruct (fpc_sums D q) as [m |]; cbn [bind]; [| discriminate].
  now apply largest_repeated_monotone.
Qed.

Lemma is_additive_tolerance_monotone_witness :
  is_additive_in (with_itertools fpc_namespace) all_ones5 7%Q = Ok true.
Proof.
  apply (is_additive_tolerance_monotone (with_itertools fpc_namespace)
           all_ones5 default_tolerance 7).
  - exact with_itertools_binds.
  - discriminate.
  - vm_compute. reflexivity.
Defined.

(** X13.  Where [itr] is [itertools], the distances of a star tree in exact
    numbers, the leaf weights [w i + w j] between different items, are
    accepted with every tolerance above 0: the three sums of a quartet are
    all equal. *)
Theorem is_additive_star_tree
    (ns : namespace) (D : matrix) (n : nat) (w : Z -> Q) (t : Q) :
  binds_itertools ns -> is_square D n -> (0 < t)%Q ->
  (forall i j, valid_index n i -> valid_index n j -> i <> j ->
               (cell D i j == w i + w j)%Q) ->
  is_additive_in ns D t = Ok true.
Proof.
  intros Hns HD Ht Hw. rewrite (is_additive_in_bound ns D t Hns).
  pose proof HD as [Hlen _]. rewrite Hlen.
  apply py_all_true_iff, Forall_forall. intros q Hin.
  apply quartets_valid in Hin.
  destruct (valid_quartet_inv n q Hin) as (a & b & c & d & ->).
  rewrite (four_point_condition_distinct D n) by assumption.
  destruct (valid_quartet_indices n a b c d Hin) as (Ha & Hb & Hc & Hd).
  destruct Hin as (_ & Hnd & _).
  inversion Hnd as [| ? ? Na Hnd1]; subst.
  inversion Hnd1 as [| ? ? Nb Hnd2]; subst.
  inversion Hnd2 as [| ? ? Nc _]; subst.
  cbn [In] in Na, Nb, Nc.
  assert (Hab : a <> b) by intuition congruence.
  assert (Hac : a <> c) by intuition congruence.
  assert (Had : a <> d) by intuition congruence.
  assert (Hbc : b <> c) by intuition congruence.
  assert (Hbd : b <> d) by intuition congruence.
  assert (Hcd : c <> d) by intuition congruence.
  unfold pairing_sums. apply largest_repeated3.
  unfold two_largest_close. rewrite !Qsquare.
  rewrite (Hw a b), (Hw c d), (Hw a c), (Hw b d), (Hw a d), (Hw b c)
    by assumption.
  left. repeat split; nra.
Qed.

Lemma all_ones5_star (i j : Z) :
  valid_index 5 i -> valid_index 5 j -> i <> j ->
  (cell all_ones5 i j == (1 # 2) + (1 # 2))%Q.
Proof.
  intros [Hi0 Hi1] [Hj0 Hj1] Hne.
  assert (Ei : i = 0 \/ i = 1 \/ i = 2 \/ i = 3 \/ i = 4) by lia.
  assert (Ej : j = 0 \/ j = 1 \/ j = 2 \/ j = 3 \/ j = 4) by lia.
  destruct Ei as [-> | [-> | [-> | [-> | ->]]]];
    destruct Ej as [-> | [-> | [-> | [-> | ->]]]];
    try reflexivity; contradiction Hne; reflexivity.
Defined.

Lemma is_additive_star_tree_witness :
  is_additive_in (with_itertools fpc_namespace) all_ones5 default_tolerance
  = Ok true.
Proof.
  apply (is_additive_star_tree (with_itertools fpc_namespace) all_ones5 5
           (fun _ => 1 # 2)%Q default_tolerance).
  - exact with_itertools_binds.
  - concrete_square.
  - reflexivity.
  - exact all_ones5_star.
Defined.

(** X14.  Where [itr] is [itertools], a matrix of four rows or more whose
    first row has fewer than two entries makes [is_additive] raise
    [IndexError]: the matrix is not checked to be square, and the exception
    of the first quartet goes through [all]. *)
Theorem is_additive_short_first_row {N : Type} {HN : Number N}
    (ns : namespace) (row : list N) (rows : matrix_of N) (t : N) :
  binds_itertools ns -> (3 <= length rows)%nat -> (length row < 2)%nat ->
  is_additive_in ns (row :: rows) t = Raise IndexError.
Proof.
  intros Hns Hrows Hrow. rewrite (is_additive_in_bound ns _ t Hns).
  destruct (first_quartet (length (row :: rows))) as [r Hr];
    [cbn [length]; lia |].
  rewrite Hr. cbn [py_all].
  assert (E : four_point_condition (row :: rows) [0; 1; 2; 3] t
              = Raise IndexError).
  { unfold four_point_condition, fpc_sums.
    rewrite map_indices_quartet. cbn [bind collect_sums].
    assert (E01 : entry (row :: rows) 0 1 = Raise IndexError).
    { unfold entry.
      rewrite (getitem_valid (row :: rows) 0 []) by (cbn [length]; lia).
      cbn [bind Z.to_nat nth].
      apply getitem_out_of_range. lia. }
    rewrite E01. reflexivity. }
  rewrite E. reflexivity.
Qed.

Lemma is_additive_short_first_row_witness :
  is_additive_in (with_itertools fpc_namespace)
    ([0] :: [[1; 0; 1; 1]; [1; 1; 0; 1]; [1; 1; 1; 0]])%Q default_tolerance
  = Raise IndexError.
Proof.
  apply is_additive_short_first_row.
  - exact with_itertools_binds.
  - cbn [length]. lia.
  - cbn [length]. lia.
Defined.
